(** * Client-side data-and-session consistency layer of the todo frontend

    A shallow embedding of the task API client ([lib/api]), the dashboard
    controller ([app/dashboard/page.tsx]), the task form
    ([components/TaskForm.tsx]) and the authentication form
    ([components/AuthForm.tsx]), followed by the properties of the
    specification that concern them.

    Asynchronous functions are embedded in a monad that threads the mutable
    module or component state, logs every externally visible effect in
    order, and carries JavaScript exceptions.  A thrown exception keeps the
    state reached so far, as in JavaScript, which is why the monad is not a
    state transformer over an error monad.  A call of the API client, of
    the dashboard or of the task form runs to completion against the
    answers the network gives it; the login form, whose property is about
    a second call arriving while a first one is suspended, is a transition
    system with one transition per turn of the event loop.

    The source asserts the type of a response body without checking it
    ([as ApiError], [undefined as T], the return of [response.json()] at
    type [T]).  A body is therefore either a value of the type declared
    for it ([ApiError], [Task], [Task[]]) or any other JSON value, and the
    client is followed on both; the body of the token endpoint, read at
    type [any], is kept as JSON. *)

From Stdlib Require Import ZArith NArith List Bool String Ascii DecimalString Lia.
Import ListNotations.

Set Implicit Arguments.
Set Warnings "-register-all".

(* ===================================================================== *)
(** * JavaScript values *)
(* ===================================================================== *)

Module Js.

(** A JavaScript string is a sequence of UTF-16 code units; [length]
    counts code units. *)
Definition jsstring := list N.

Definition lit (s : string) : jsstring :=
  map N_of_ascii (list_ascii_of_string s).
Arguments lit : simpl never.

Definition eqb (a b : jsstring) : bool :=
  if list_eq_dec N.eq_dec a b then true else false.

(** WhiteSpace and LineTerminator code units of ECMAScript, the set that
    [String.prototype.trim] strips and that [\s] matches. *)
Definition is_whitespace (c : N) : bool :=
  ((9 <=? c) && (c <=? 13)            (* TAB LF VT FF CR *)
   || (c =? 32)                       (* SPACE *)
   || (c =? 160)                      (* NO-BREAK SPACE *)
   || (c =? 5760)                     (* OGHAM SPACE MARK *)
   || ((8192 <=? c) && (c <=? 8202))  (* EN QUAD .. HAIR SPACE *)
   || (c =? 8232) || (c =? 8233)      (* LINE / PARAGRAPH SEPARATOR *)
   || (c =? 8239)                     (* NARROW NO-BREAK SPACE *)
   || (c =? 8287)                     (* MEDIUM MATHEMATICAL SPACE *)
   || (c =? 12288)                    (* IDEOGRAPHIC SPACE *)
   || (c =? 65279))%N.                (* ZERO WIDTH NO-BREAK SPACE *)

Fixpoint trimStart (s : jsstring) : jsstring :=
  match s with
  | c :: s' => if is_whitespace c then trimStart s' else s
  | [] => []
  end.

Definition trimEnd (s : jsstring) : jsstring :=
  rev (trimStart (rev s)).

Definition trim (s : jsstring) : jsstring := trimEnd (trimStart s).

Fixpoint startsWith (s p : jsstring) : bool :=
  match p, s with
  | [], _ => true
  | _ :: _, [] => false
  | x :: p', y :: s' => (x =? y)%N && startsWith s' p'
  end.

(** [s.includes(p)] *)
Fixpoint includes (s p : jsstring) : bool :=
  startsWith s p ||
  match s with
  | [] => false
  | _ :: s' => includes s' p
  end.

(** A string in a boolean position: only the empty string is falsy. *)
Definition truthy (s : jsstring) : bool :=
  match s with [] => false | _ :: _ => true end.

(** The result of [JSON.parse]: the type of a response body read at type
    [any].  Numbers are kept as integers. *)
Inductive Json :=
| JNull
| JBool (b : bool)
| JNum (z : Z)
| JStr (s : jsstring)
| JArr (items : list Json)
| JObj (fields : list (jsstring * Json)).

(** Own property of a parsed object; a later duplicate key wins, as in
    [JSON.parse]. *)
Fixpoint lookup (k : jsstring) (fields : list (jsstring * Json)) : option Json :=
  match fields with
  | [] => None
  | (k', v) :: rest =>
      match lookup k rest with
      | Some w => Some w
      | None => if eqb k k' then Some v else None
      end
  end.

(** [data?.key]: [None] stands for [undefined].  Primitives and arrays of
    a parsed body have no such property. *)
Definition optional_get (data : Json) (k : jsstring) : option Json :=
  match data with
  | JObj fields => lookup k fields
  | _ => None
  end.

Definition truthy_json (v : Json) : bool :=
  match v with
  | JNull => false
  | JBool b => b
  | JNum z => negb (z =? 0)%Z
  | JStr s => truthy s
  | JArr _ | JObj _ => true
  end.

(** [v || null], with [None] for [null]. *)
Definition or_null (v : option Json) : option Json :=
  match v with
  | Some w => if truthy_json w then Some w else None
  | None => None
  end.

(** A run-time value at declared type [A]: [null], [undefined], a value
    of the type, or a parsed JSON value that is not of the type.  The type
    assertions of the source ([undefined as T], a parsed body returned at
    type [T]) let the other three flow where an [A] is declared. *)
Inductive Loose (A : Type) :=
| Null
| Undefined
| Value (a : A)
| Foreign (j : Json).
Arguments Null {A}.
Arguments Undefined {A}.
Arguments Value {A} a.
Arguments Foreign {A} j.

(** A parsed body that is not of the declared type [A], as the value the
    caller holds at type [A]. *)
Definition unchecked {A} (j : Json) : Loose A :=
  match j with
  | JNull => Null
  | _ => Foreign j
  end.

End Js.

Import Js.

(* ===================================================================== *)
(** * Shared types ([types/index.ts]) *)
(* ===================================================================== *)

Record Task := {
  id : Z;
  title : jsstring;
  description : option jsstring;
  is_completed : bool;
  created_at : jsstring;
  updated_at : jsstring
}.

Record TaskCreate := {
  tc_title : jsstring;
  tc_description : option jsstring      (* [None] is [null] *)
}.

Record TaskUpdate := {
  tu_title : option jsstring;
  tu_description : option (option jsstring);
  tu_is_completed : option bool
}.

(** [Record<string, unknown>]: the values are kept as JSON. *)
Definition Details := list (jsstring * Json).

Record ApiErrorBody := {
  code : jsstring;
  message : jsstring;
  details : option Details
}.

(** [interface ApiError { error: {...} }] *)
Record ApiError := { error : ApiErrorBody }.

(* ===================================================================== *)
(** * Thrown values, effects and the monad of asynchronous functions *)
(* ===================================================================== *)

(** What a [catch] clause can receive. *)
Inductive Thrown :=
| ApiRequestError (code message : jsstring) (details : option Details)
| UntypedApiRequestError (code : option Json) (message : jsstring)
                         (details : option Json)
    (* an [ApiRequestError] whose [code] or [details] is not of its
       declared type; [None] is [undefined] *)
| NativeError (name message : jsstring)    (* TypeError, SyntaxError, ... *)
| NonError.                                (* a thrown value that is no [Error] *)

Definition instanceof_Error (e : Thrown) : bool :=
  match e with
  | ApiRequestError _ _ _ | UntypedApiRequestError _ _ _ | NativeError _ _ => true
  | NonError => false
  end.

Definition error_message (e : Thrown) : jsstring :=
  match e with
  | ApiRequestError _ m _ => m
  | UntypedApiRequestError _ m _ => m
  | NativeError _ m => m
  | NonError => []
  end.

(** The [code] field, which only [ApiRequestError] has, when it holds a
    string. *)
Definition error_code (e : Thrown) : option jsstring :=
  match e with
  | ApiRequestError c _ _ => Some c
  | UntypedApiRequestError (Some (JStr c)) _ _ => Some c
  | _ => None
  end.

Inductive Method := GET | POST | PATCH | DELETE.

(** The endpoints built by the client: ["/tasks"], [`/tasks/${taskId}`] and
    [`/tasks/${taskId}/complete`]. *)
Inductive Endpoint :=
| EpTasks
| EpTask (taskId : Z)
| EpTaskComplete (taskId : Z).

(** [JSON.stringify(data)] of a request, kept structured. *)
Inductive RequestBody :=
| BodyCreate (data : TaskCreate)
| BodyUpdate (data : TaskUpdate).

(** Externally visible effects, logged in program order. *)
Inductive Event :=
| EvFetchToken                          (* fetch("/api/token", {credentials}) *)
| EvFetchStore (m : Method) (ep : Endpoint) (bearer : Json)
               (body : option RequestBody)   (* fetch(API_BASE_URL + endpoint) *)
| EvClearCache                          (* clearApiCache() *)
| EvSignOut                             (* signOut() *)
| EvPush (path : jsstring)              (* router.push(path) *)
| EvConsoleError                        (* console.error(...) *)
| EvSignUpEmail (email password name : jsstring)   (* signUp.email({...}) *)
| EvSignInEmail (email password : jsstring).       (* signIn.email({...}) *)

Definition is_store_fetch (e : Event) : bool :=
  match e with EvFetchStore _ _ _ _ => true | _ => false end.

Definition is_network (e : Event) : bool :=
  match e with EvFetchToken | EvFetchStore _ _ _ _ => true | _ => false end.

Definition store_calls (tr : list Event) : nat :=
  List.length (filter is_store_fetch tr).

Definition network_calls (tr : list Event) : nat :=
  List.length (filter is_network tr).

Inductive Result (A : Type) :=
| Resolved (a : A)
| Rejected (e : Thrown).
Arguments Resolved {A} a.
Arguments Rejected {A} e.

Module Async.

(** A computation over state [S]: outcome, final state, effects. *)
Definition M (S A : Type) := S -> Result A * S * list Event.

Definition ret {S A} (a : A) : M S A := fun s => (Resolved a, s, []).

Definition bind {S A B} (c : M S A) (k : A -> M S B) : M S B :=
  fun s =>
    match c s with
    | (Resolved a, s1, t1) =>
        let '(r, s2, t2) := k a s1 in (r, s2, t1 ++ t2)
    | (Rejected e, s1, t1) => (Rejected e, s1, t1)
    end.

Definition throw {S A} (e : Thrown) : M S A := fun s => (Rejected e, s, []).

Definition emit {S} (e : Event) : M S unit := fun s => (Resolved tt, s, [e]).

Definition get {S} : M S S := fun s => (Resolved s, s, []).

Definition modify {S} (f : S -> S) : M S unit := fun s => (Resolved tt, f s, []).

(** [try { c } catch (err) { h err }] *)
Definition try_catch {S A} (c : M S A) (h : Thrown -> M S A) : M S A :=
  fun s =>
    match c s with
    | (Resolved a, s1, t1) => (Resolved a, s1, t1)
    | (Rejected e, s1, t1) =>
        let '(r, s2, t2) := h e s1 in (r, s2, t1 ++ t2)
    end.

(** [try { c } finally { f }], for a [finally] block that completes
    normally. *)
Definition finally {S A} (c : M S A) (f : M S unit) : M S A :=
  fun s =>
    let '(r, s1, t1) := c s in
    match f s1 with
    | (Resolved _, s2, t2) => (r, s2, t1 ++ t2)
    | (Rejected e, s2, t2) => (Rejected e, s2, t1 ++ t2)
    end.

(** Run a computation on the first component of a pair of states. *)
Definition on_fst {S1 S2 A} (c : M S1 A) : M (S1 * S2) A :=
  fun '(s1, s2) => let '(r, s1', t) := c s1 in (r, (s1', s2), t).

(** Run a computation on the second component of a pair of states. *)
Definition on_snd {S1 S2 A} (c : M S2 A) : M (S1 * S2) A :=
  fun '(s1, s2) => let '(r, s2', t) := c s2 in (r, (s1, s2'), t).

Definition outcome {S A} (x : Result A * S * list Event) : Result A := fst (fst x).
Definition final {S A} (x : Result A * S * list Event) : S := snd (fst x).
Definition trace {S A} (x : Result A * S * list Event) : list Event := snd x.

End Async.

Import Async.

Notation "x <- c ;; k" := (bind c (fun x => k))
  (at level 61, c at next level, right associativity).
Notation "c ;; k" := (bind c (fun _ => k))
  (at level 61, right associativity).

(* ===================================================================== *)
(** * The environment of one request *)
(* ===================================================================== *)

(** What [await response.json()] gives. *)
Inductive JsonResult (A : Type) :=
| JsonRejects (e : Thrown)
| JsonResolves (a : A).
Arguments JsonRejects {A} e.
Arguments JsonResolves {A} a.

(** Response of the token endpoint; its body is read at type [any]. *)
Record TokenResponse := {
  tr_ok : bool;
  tr_json : JsonResult Json
}.

(** The two values that have no properties. *)
Inductive Nullish := OfNull | OfUndefined.

(** What the JavaScript engine does with a value that is not of its
    declared type: the message of the [TypeError] it raises when property
    [key] of [null] or of [undefined] is read, and [ToString] of a JSON
    value that is not a string, which throws for an object that shadows
    [toString]. *)
Record Engine := {
  cannot_read : Nullish -> jsstring -> jsstring;
  to_string : Json -> Result jsstring
}.

(** Response of the remote task store to a request whose payload has type
    [T].  [response.ok] selects how the body is read: as an [ApiError] when
    not ok, as a [T] otherwise.  [NotOk] and [Ok] are the answers whose
    body does not parse or parses to a value of that type, [NotOkUntyped]
    and [OkUntyped] the answers whose body parses to any other JSON
    value. *)
Inductive Response (T : Type) :=
| NotOk (body : JsonResult ApiError)
| Ok (status : Z) (body : JsonResult T)
| NotOkUntyped (data : Json) (engine : Engine)
| OkUntyped (status : Z) (data : Json).
Arguments NotOk {T} body.
Arguments Ok {T} status body.
Arguments NotOkUntyped {T} data engine.
Arguments OkUntyped {T} status data.

Inductive FetchResult (R : Type) :=
| FetchRejects (e : Thrown)             (* transport failure *)
| FetchResolves (r : R).
Arguments FetchRejects {R} e.
Arguments FetchResolves {R} r.

(** The answers the network gives during one call of the API client. *)
Record Net (T : Type) := {
  token_fetch : FetchResult TokenResponse;
  store_fetch : FetchResult (Response T)
}.

(* ===================================================================== *)
(** * The API client ([lib/api]) *)
(* ===================================================================== *)

Record Cache := {
  tasksCache : Loose (list Task);       (* [Task[] | null] *)
  cacheTimestamp : option Z             (* [number | null], [None] is [null] *)
}.

Definition empty_cache : Cache :=
  {| tasksCache := Null; cacheTimestamp := None |}.

Definition CACHE_TTL : Z := 30000.

Definition clearApiCache : M Cache unit :=
  emit EvClearCache ;;
  modify (fun _ => {| tasksCache := Null; cacheTimestamp := None |}).

(** [!cacheTimestamp]: a number is falsy when it is [null] or [0]. *)
Definition falsy_timestamp (t : option Z) : bool :=
  match t with
  | None => true
  | Some z => (z =? 0)%Z
  end.

(** [!tasksCache]: an array is always truthy. *)
Definition falsy_tasks (t : Loose (list Task)) : bool :=
  match t with
  | Null | Undefined => true
  | Value _ => false
  | Foreign j => negb (truthy_json j)
  end.

(** [isCacheValid()], with [now] the value of [Date.now()]. *)
Definition isCacheValid (now : Z) (c : Cache) : bool :=
  if falsy_tasks (tasksCache c) || falsy_timestamp (cacheTimestamp c) then false
  else
    match cacheTimestamp c with
    | Some ts => (now - ts <? CACHE_TTL)%Z
    | None => false
    end.

Definition await_json {S A} (j : JsonResult A) : M S A :=
  match j with
  | JsonRejects e => throw e
  | JsonResolves a => ret a
  end.

(** [getAuthToken()]: the whole body sits in a [try] whose [catch] returns
    [null]. *)
Definition getAuthToken {S} (tok : FetchResult TokenResponse) : M S (option Json) :=
  try_catch
    (emit EvFetchToken ;;
     match tok with
     | FetchRejects e => throw e
     | FetchResolves response =>
         if negb (tr_ok response) then ret None
         else
           data <- await_json (tr_json response) ;;
           ret (or_null (optional_get data (lit "token")))
     end)
    (fun _ => ret None).

Definition unknown_error : ApiError :=
  {| error := {| code := lit "UNKNOWN";
                 message := lit "An error occurred";
                 details := None |} |}.

(** [response.json().catch(() => ({error: {code: "UNKNOWN", ...}}))] *)
Definition json_or_unknown (j : JsonResult ApiError) : ApiError :=
  match j with
  | JsonRejects _ => unknown_error
  | JsonResolves b => b
  end.

(** [errorData.error] of a body that parsed, as the base of the read of
    [.code]: reading [.error] of [null], or [.code] of [undefined] or of
    [null], throws a [TypeError]. *)
Definition error_member (engine : Engine) (errorData : Json) : Result Json :=
  match errorData with
  | JNull =>
      Rejected (NativeError (lit "TypeError") (cannot_read engine OfNull (lit "error")))
  | _ =>
      match optional_get errorData (lit "error") with
      | None =>
          Rejected (NativeError (lit "TypeError")
                      (cannot_read engine OfUndefined (lit "code")))
      | Some JNull =>
          Rejected (NativeError (lit "TypeError") (cannot_read engine OfNull (lit "code")))
      | Some e => Resolved e
      end
  end.

(** [new ApiRequestError(code, message, details)] on arguments read from a
    parsed body.  [super(message)] converts a [message] that is not
    [undefined] to a string; the result is what the [throw] statement
    around the constructor throws: the new error, or what the conversion
    threw. *)
Definition new_ApiRequestError (engine : Engine) (code message details : option Json)
    : Thrown :=
  match message with
  | None => UntypedApiRequestError code [] details
  | Some (JStr m) =>
      match code, details with
      | Some (JStr c), None => ApiRequestError c m None
      | Some (JStr c), Some (JObj fields) => ApiRequestError c m (Some fields)
      | _, _ => UntypedApiRequestError code m details
      end
  | Some v =>
      match to_string engine v with
      | Resolved m => UntypedApiRequestError code m details
      | Rejected e => e
      end
  end.

(** [apiRequest<T>(endpoint, options)], which returns [undefined as T] for
    204 No Content. *)
Definition apiRequest {S T} (net : Net T) (ep : Endpoint) (m : Method)
    (body : option RequestBody) : M S (Loose T) :=
  token <- getAuthToken (token_fetch net) ;;
  match token with
  | None => throw (ApiRequestError (lit "UNAUTHORIZED") (lit "Not authenticated") None)
  | Some bearer =>
      emit (EvFetchStore m ep bearer body) ;;
      match store_fetch net with
      | FetchRejects e => throw e
      | FetchResolves (NotOk b) =>
          let errorData := json_or_unknown b in
          throw (ApiRequestError (code (error errorData))
                                 (message (error errorData))
                                 (details (error errorData)))
      | FetchResolves (NotOkUntyped errorData engine) =>
          match error_member engine errorData with
          | Rejected typeError => throw typeError
          | Resolved e =>
              throw (new_ApiRequestError engine
                       (optional_get e (lit "code"))
                       (optional_get e (lit "message"))
                       (optional_get e (lit "details")))
          end
      | FetchResolves (Ok status b) =>
          if (status =? 204)%Z then ret Undefined
          else
            v <- await_json b ;;
            ret (Value v)
      | FetchResolves (OkUntyped status data) =>
          if (status =? 204)%Z then ret Undefined
          else ret (unchecked data)
      end
  end.

(** [getTasks(forceRefresh)]: [now_check] is the clock read by
    [isCacheValid], [now_store] the clock read after the response. *)
Definition getTasks (forceRefresh : bool) (now_check now_store : Z)
    (net : Net (list Task)) : M Cache (Loose (list Task)) :=
  c <- get ;;
  if negb forceRefresh && isCacheValid now_check c then
    ret (tasksCache c)
  else
    tasks <- apiRequest net EpTasks GET None ;;
    modify (fun _ => {| tasksCache := tasks; cacheTimestamp := Some now_store |}) ;;
    ret tasks.

Definition createTask (data : TaskCreate) (net : Net Task) : M Cache (Loose Task) :=
  task <- apiRequest net EpTasks POST (Some (BodyCreate data)) ;;
  clearApiCache ;;
  ret task.

Definition updateTask (taskId : Z) (data : TaskUpdate) (net : Net Task)
    : M Cache (Loose Task) :=
  task <- apiRequest net (EpTask taskId) PATCH (Some (BodyUpdate data)) ;;
  clearApiCache ;;
  ret task.

Definition deleteTask (taskId : Z) (net : Net unit) : M Cache unit :=
  apiRequest net (EpTask taskId) DELETE None ;;
  clearApiCache.

Definition completeTask (taskId : Z) (net : Net Task) : M Cache (Loose Task) :=
  task <- apiRequest net (EpTaskComplete taskId) POST None ;;
  clearApiCache ;;
  ret task.

Definition uncompleteTask (taskId : Z) (net : Net Task) : M Cache (Loose Task) :=
  task <- apiRequest net (EpTaskComplete taskId) DELETE None ;;
  clearApiCache ;;
  ret task.

(* ===================================================================== *)
(** * The session provider at its boundary ([lib/auth-client]) *)
(* ===================================================================== *)

Inductive SignOutResult :=
| SignOutResolves
| SignOutRejects (e : Thrown).

(** [await signOut()] *)
Definition signOut {S} (o : SignOutResult) : M S unit :=
  emit EvSignOut ;;
  match o with
  | SignOutResolves => ret tt
  | SignOutRejects e => throw e
  end.

Definition router_push {S} (path : jsstring) : M S unit := emit (EvPush path).

(* ===================================================================== *)
(** * The dashboard controller ([app/dashboard/page.tsx]) *)
(* ===================================================================== *)

Module DashboardPage.

(** The [useState] cells of the page.  [d_tasks] is [Undefined] when the
    list request resolved to [undefined]. *)
Record State := {
  d_tasks : Loose (list Task);
  d_isLoading : bool;
  d_isCreating : bool;
  d_error : option jsstring
}.

Definition initial : State :=
  {| d_tasks := Value []; d_isLoading := true; d_isCreating := false; d_error := None |}.

Definition setTasks (v : Loose (list Task)) : M State unit :=
  modify (fun d => {| d_tasks := v; d_isLoading := d_isLoading d;
                      d_isCreating := d_isCreating d; d_error := d_error d |}).

Definition setIsLoading (b : bool) : M State unit :=
  modify (fun d => {| d_tasks := d_tasks d; d_isLoading := b;
                      d_isCreating := d_isCreating d; d_error := d_error d |}).

Definition setError (e : option jsstring) : M State unit :=
  modify (fun d => {| d_tasks := d_tasks d; d_isLoading := d_isLoading d;
                      d_isCreating := d_isCreating d; d_error := e |}).

(** [{error && (<div>...</div>)}]: the banner is rendered for a truthy
    [error]. *)
Definition banner_shown (d : State) : bool :=
  match d_error d with
  | Some m => truthy m
  | None => false
  end.

(** [fetchTasks].  [getTasks(true)] never reads the clock of
    [isCacheValid], so [now] serves for both readings. *)
Definition fetchTasks (now : Z) (net : Net (list Task)) : M (Cache * State) unit :=
  finally
    (try_catch
       (on_snd (setError None) ;;
        fetchedTasks <- on_fst (getTasks true now now net) ;;
        on_snd (setTasks fetchedTasks))
       (fun err =>
          if instanceof_Error err then
            if includes (error_message err) (lit "UNAUTHORIZED")
               || includes (error_message err) (lit "Not authenticated")
            then router_push (lit "/login")
            else on_snd (setError (Some (error_message err)))
          else on_snd (setError (Some (lit "Failed to load tasks")))))
    (on_snd (setIsLoading false)).

(** The banner's button: [onClick={fetchTasks}]. *)
Definition try_again := fetchTasks.

(** [handleLogout] *)
Definition handleLogout (o : SignOutResult) : M (Cache * State) unit :=
  on_fst clearApiCache ;;
  signOut o ;;
  router_push (lit "/login").

End DashboardPage.

(* ===================================================================== *)
(** * The logout button ([components/AuthForm.tsx]) *)
(* ===================================================================== *)

Module LogoutButton.

(** The component state is the [loading] flag. *)
Definition setLoading (b : bool) : M bool unit := modify (fun _ => b).

Definition handleLogout (o : SignOutResult) : M (Cache * bool) unit :=
  on_snd (setLoading true) ;;
  finally
    (try_catch
       (signOut o ;;
        on_fst clearApiCache ;;
        router_push (lit "/login"))
       (fun _ =>
          emit EvConsoleError ;;
          on_fst clearApiCache ;;
          router_push (lit "/login")))
    (on_snd (setLoading false)).

End LogoutButton.

(* ===================================================================== *)
(** * The task form ([components/TaskForm.tsx]) *)
(* ===================================================================== *)

Module TaskForm.

Record State := {
  f_title : jsstring;
  f_description : jsstring;
  f_error : option jsstring
}.

Definition setTitle (v : jsstring) : M State unit :=
  modify (fun f => {| f_title := v; f_description := f_description f; f_error := f_error f |}).

Definition setDescription (v : jsstring) : M State unit :=
  modify (fun f => {| f_title := f_title f; f_description := v; f_error := f_error f |}).

Definition setError (e : option jsstring) : M State unit :=
  modify (fun f => {| f_title := f_title f; f_description := f_description f; f_error := e |}).

Definition validateTitle (value : jsstring) : option jsstring :=
  let trimmed := trim value in
  if negb (truthy trimmed) then Some (lit "Title is required")
  else if (200 <? Z.of_nat (List.length trimmed))%Z
       then Some (lit "Title must be 200 characters or less")
       else None.

(** [s || null] *)
Definition string_or_null (s : jsstring) : option jsstring :=
  if truthy s then Some s else None.

(** A [string | null] in a boolean position. *)
Definition truthy_or_null (v : option jsstring) : bool :=
  match v with
  | Some s => truthy s
  | None => false
  end.

(** [handleSubmit], for the [onSubmit] prop given by the parent, which runs
    on the parent's state [S].  The handler reads [title] and [description]
    of the render it was created in. *)
Definition handleSubmit {S} (onSubmit : TaskCreate -> M S unit) : M (S * State) unit :=
  st <- get ;;
  let title := f_title (snd st) in
  let description := f_description (snd st) in
  on_snd (setError None) ;;
  let validationError := validateTitle title in
  if truthy_or_null validationError then
    on_snd (setError validationError)
  else
    try_catch
      (on_fst (onSubmit {| tc_title := trim title;
                           tc_description := string_or_null (trim description) |}) ;;
       on_snd (setTitle []) ;;
       on_snd (setDescription []))
      (fun err =>
         if instanceof_Error err
         then on_snd (setError (Some (error_message err)))
         else on_snd (setError (Some (lit "Failed to create task")))).

End TaskForm.

(* ===================================================================== *)
(** * The login / signup form ([components/AuthForm.tsx]) *)
(* ===================================================================== *)

Module AuthForm.

Inductive Mode := login | signup.

(** The [useState] cells, the [submittingRef] cell, and the calls of
    [handleSubmit] that are suspended at an [await]: those waiting for
    [signUp.email] / [signIn.email], and those waiting for
    [verifyAuthenticatedSession].  A suspended call only remembers [mode],
    a prop, so counting them is exact. *)
Record State := {
  email : jsstring;
  password : jsstring;
  a_error : option jsstring;
  loading : bool;
  submittingRef : bool;
  awaiting_auth : nat;
  awaiting_verify : nat
}.

Definition initial : State :=
  {| email := []; password := []; a_error := None; loading := false;
     submittingRef := false; awaiting_auth := 0; awaiting_verify := 0 |}.

Definition in_flight (st : State) : nat := awaiting_auth st + awaiting_verify st.

Definition at_sign : N := 64.
Definition full_stop : N := 46.

(** A code unit matched by [[^\s@]]. *)
Definition plain (c : N) : bool := negb (is_whitespace c) && negb (c =? at_sign)%N.

(** [s] up to its first ["@"], and what follows it. *)
Fixpoint split_at (s : jsstring) : option (jsstring * jsstring) :=
  match s with
  | [] => None
  | c :: s' =>
      if (c =? at_sign)%N then Some ([], s')
      else match split_at s' with
           | Some (l, r) => Some (c :: l, r)
           | None => None
           end
  end.

(** [d] matches [[^\s@]+\.[^\s@]+]: plain code units with a full stop that
    is neither first nor last. *)
Definition dotted (d : jsstring) : bool :=
  forallb plain d &&
  match d with
  | [] => false
  | _ :: rest => existsb (fun c => (c =? full_stop)%N) (removelast rest)
  end.

(** [validateEmail]: [/^[^\s@]+@[^\s@]+\.[^\s@]+$/.test(email)].  The
    pattern is anchored at both ends and its classes exclude ["@"], so a
    match has exactly one ["@"], a non-empty plain part before it and a
    dotted part after it. *)
Definition validateEmail (e : jsstring) : bool :=
  match split_at e with
  | Some (l, d) => truthy l && forallb plain l && dotted d
  | None => false
  end.

Definition validatePassword (p : jsstring) : bool :=
  (8 <=? Z.of_nat (List.length p))%Z.

(** [email.split("@")[0]] *)
Definition email_prefix (e : jsstring) : jsstring :=
  match split_at e with
  | Some (l, _) => l
  | None => e
  end.

(** [verifyAuthenticatedSession()], given the answer of the token
    endpoint: [!!data?.token], and [false] on any failure. *)
Definition verifyAuthenticatedSession (tok : FetchResult TokenResponse) : bool :=
  match tok with
  | FetchRejects _ => false
  | FetchResolves response =>
      if negb (tr_ok response) then false
      else match tr_json response with
           | JsonRejects _ => false
           | JsonResolves data =>
               match optional_get data (lit "token") with
               | Some v => truthy_json v
               | None => false
               end
           end
  end.

(** How [signUp.email] / [signIn.email] settles. *)
Inductive AuthResult :=
| AuthThrows
| AuthError                             (* resolves with [result.error] set *)
| AuthOk.

Inductive Input :=
| TypeEmail (v : jsstring)              (* onChange of the email field *)
| TypePassword (v : jsstring)
| Submit                                (* onSubmit of the form *)
| AuthSettles (r : AuthResult)          (* the awaited auth call settles *)
| VerifySettles (tok : FetchResult TokenResponse).

Definition with_error (st : State) (e : option jsstring) : State :=
  {| email := email st; password := password st; a_error := e;
     loading := loading st; submittingRef := submittingRef st;
     awaiting_auth := awaiting_auth st; awaiting_verify := awaiting_verify st |}.

(** The [finally] block: [setLoading(false); submittingRef.current = false]. *)
Definition finish (st : State) : State :=
  {| email := email st; password := password st; a_error := a_error st;
     loading := false; submittingRef := false;
     awaiting_auth := awaiting_auth st; awaiting_verify := awaiting_verify st |}.

(** [handleSubmit] from its entry to its first [await]. *)
Definition handleSubmit (mode : Mode) (st : State) : State * list Event :=
  if submittingRef st then (st, [])
  else
    let st1 := with_error st None in
    if negb (validateEmail (email st)) then
      (with_error st1 (Some (lit "Please enter a valid email address")), [])
    else if negb (validatePassword (password st)) then
      (with_error st1 (Some (lit "Password must be at least 8 characters")), [])
    else
      ({| email := email st1; password := password st1; a_error := a_error st1;
          loading := true; submittingRef := true;
          awaiting_auth := S (awaiting_auth st1);
          awaiting_verify := awaiting_verify st1 |},
       [match mode with
        | signup => EvSignUpEmail (email st) (password st) (email_prefix (email st))
        | login => EvSignInEmail (email st) (password st)
        end]).

(** [handleSubmit] resumed when the auth call settles. *)
Definition resume_auth (mode : Mode) (r : AuthResult) (st : State) : State * list Event :=
  let st0 :=
    {| email := email st; password := password st; a_error := a_error st;
       loading := loading st; submittingRef := submittingRef st;
       awaiting_auth := pred (awaiting_auth st);
       awaiting_verify := awaiting_verify st |} in
  match r with
  | AuthThrows =>
      (finish (with_error st0 (Some (match mode with
                                     | login => lit "Invalid email or password"
                                     | signup => lit "Registration failed"
                                     end))), [])
  | AuthError =>
      (finish (with_error st0 (Some (match mode with
                                     | signup => lit "Registration failed. Please try a different email or try again later."
                                     | login => lit "Invalid email or password"
                                     end))), [])
  | AuthOk =>
      ({| email := email st0; password := password st0; a_error := a_error st0;
          loading := loading st0; submittingRef := submittingRef st0;
          awaiting_auth := awaiting_auth st0;
          awaiting_verify := S (awaiting_verify st0) |},
       [EvFetchToken])
  end.

(** [handleSubmit] resumed when [verifyAuthenticatedSession] settles. *)
Definition resume_verify (mode : Mode) (tok : FetchResult TokenResponse) (st : State)
    : State * list Event :=
  let st0 :=
    {| email := email st; password := password st; a_error := a_error st;
       loading := loading st; submittingRef := submittingRef st;
       awaiting_auth := awaiting_auth st;
       awaiting_verify := pred (awaiting_verify st) |} in
  if negb (verifyAuthenticatedSession tok) then
    (finish (with_error st0 (Some (match mode with
                                   | signup => lit "Registration succeeded but session creation failed. Please try logging in."
                                   | login => lit "Login succeeded but session creation failed. Please try again."
                                   end))), [])
  else
    (finish st0, [EvPush (lit "/dashboard")]).

(** One turn of the event loop.  A settlement can only be delivered to a
    call that is waiting for it. *)
Inductive step (mode : Mode) : State -> Input -> State -> list Event -> Prop :=
| step_email st v :
    step mode st (TypeEmail v)
      {| email := v; password := password st; a_error := a_error st;
         loading := loading st; submittingRef := submittingRef st;
         awaiting_auth := awaiting_auth st; awaiting_verify := awaiting_verify st |} []
| step_password st v :
    step mode st (TypePassword v)
      {| email := email st; password := v; a_error := a_error st;
         loading := loading st; submittingRef := submittingRef st;
         awaiting_auth := awaiting_auth st; awaiting_verify := awaiting_verify st |} []
| step_submit st :
    step mode st Submit (fst (handleSubmit mode st)) (snd (handleSubmit mode st))
| step_auth st r :
    0 < awaiting_auth st ->
    step mode st (AuthSettles r) (fst (resume_auth mode r st)) (snd (resume_auth mode r st))
| step_verify st tok :
    0 < awaiting_verify st ->
    step mode st (VerifySettles tok)
      (fst (resume_verify mode tok st)) (snd (resume_verify mode tok st)).

(** The states the form can be in, with the effects issued on the way. *)
Inductive reachable (mode : Mode) : State -> list Event -> Prop :=
| reach_initial : reachable mode initial []
| reach_step st tr i st' evs :
    reachable mode st tr -> step mode st i st' evs -> reachable mode st' (tr ++ evs).

Definition is_auth_request (e : Event) : bool :=
  match e with
  | EvSignUpEmail _ _ _ | EvSignInEmail _ _ => true
  | _ => false
  end.

End AuthForm.

(* ===================================================================== *)
(** * Vocabulary of the properties *)
(* ===================================================================== *)

(** The value [getAuthToken] hands to its caller for a given answer of the
    token endpoint. *)
Definition acquired (tok : FetchResult TokenResponse) : option Json :=
  match outcome (getAuthToken tok tt) with
  | Resolved v => v
  | Rejected _ => None
  end.

(** A missing or invalid session, as the token endpoint shows it: a
    transport error, a non-OK response, a body that does not parse, or a
    body without a (truthy) token. *)
Definition session_unavailable (tok : FetchResult TokenResponse) : bool :=
  match tok with
  | FetchRejects _ => true
  | FetchResolves response =>
      negb (tr_ok response) ||
      match tr_json response with
      | JsonRejects _ => true
      | JsonResolves data =>
          match optional_get data (lit "token") with
          | None => true
          | Some v => negb (truthy_json v)
          end
      end
  end.

(** The remote call succeeds: a token was acquired and the store gave a
    success status with no body or a body that parses. *)
Definition request_succeeds {T} (net : Net T) : bool :=
  match acquired (token_fetch net), store_fetch net with
  | Some _, FetchResolves (Ok status body) =>
      (status =? 204)%Z || match body with
                           | JsonResolves _ => true
                           | JsonRejects _ => false
                           end
  | Some _, FetchResolves (OkUntyped _ _) => true
  | _, _ => false
  end.




(** One call of an exported operation of the API client, with the answers
    of the network during it. *)
Inductive Call :=
| CallGetTasks (forceRefresh : bool) (now_check now_store : Z) (net : Net (list Task))
| CallCreateTask (data : TaskCreate) (net : Net Task)
| CallUpdateTask (taskId : Z) (data : TaskUpdate) (net : Net Task)
| CallDeleteTask (taskId : Z) (net : Net unit)
| CallCompleteTask (taskId : Z) (net : Net Task)
| CallUncompleteTask (taskId : Z) (net : Net Task).

(** Run [c] and forget the value it resolves to. *)
Definition settle {A} (c : M Cache A) : M Cache unit := c ;; ret tt.

Definition run (c : Call) : M Cache unit :=
  match c with
  | CallGetTasks f n1 n2 net => settle (getTasks f n1 n2 net)
  | CallCreateTask data net => settle (createTask data net)
  | CallUpdateTask i data net => settle (updateTask i data net)
  | CallDeleteTask i net => settle (deleteTask i net)
  | CallCompleteTask i net => settle (completeTask i net)
  | CallUncompleteTask i net => settle (uncompleteTask i net)
  end.

Definition is_mutation (c : Call) : bool :=
  match c with
  | CallGetTasks _ _ _ _ => false
  | _ => true
  end.

Definition call_token (c : Call) : FetchResult TokenResponse :=
  match c with
  | CallGetTasks _ _ _ net => token_fetch net
  | CallCreateTask _ net | CallUpdateTask _ _ net
  | CallCompleteTask _ net | CallUncompleteTask _ net => token_fetch net
  | CallDeleteTask _ net => token_fetch net
  end.

Definition call_succeeds (c : Call) : bool :=
  match c with
  | CallGetTasks _ _ _ net => request_succeeds net
  | CallCreateTask _ net | CallUpdateTask _ _ net
  | CallCompleteTask _ net | CallUncompleteTask _ net => request_succeeds net
  | CallDeleteTask _ net => request_succeeds net
  end.




(** The request that [c] sends to the store once it holds [bearer]. *)
Definition call_request (c : Call) (bearer : Json) : Event :=
  match c with
  | CallGetTasks _ _ _ _ => EvFetchStore GET EpTasks bearer None
  | CallCreateTask data _ => EvFetchStore POST EpTasks bearer (Some (BodyCreate data))
  | CallUpdateTask i data _ => EvFetchStore PATCH (EpTask i) bearer (Some (BodyUpdate data))
  | CallDeleteTask i _ => EvFetchStore DELETE (EpTask i) bearer None
  | CallCompleteTask i _ => EvFetchStore POST (EpTaskComplete i) bearer None
  | CallUncompleteTask i _ => EvFetchStore DELETE (EpTaskComplete i) bearer None
  end.

(** The error raised for a non-success answer with error body [b]. *)
Definition raised_for (b : JsonResult ApiError) : Thrown :=
  match b with
  | JsonResolves {| error := {| code := c; message := m; details := d |} |} =>
      ApiRequestError c m d
  | JsonRejects _ =>
      ApiRequestError (lit "UNKNOWN") (lit "An error occurred") None
  end.

(** The error raised for a non-success answer whose body parses to
    [data], a JSON value that is not of type [ApiError]. *)
Definition raised_for_untyped (data : Json) (engine : Engine) : Thrown :=
  match error_member engine data with
  | Rejected typeError => typeError
  | Resolved e =>
      new_ApiRequestError engine
        (optional_get e (lit "code"))
        (optional_get e (lit "message"))
        (optional_get e (lit "details"))
  end.




Definition unauthorized : Thrown :=
  ApiRequestError (lit "UNAUTHORIZED") (lit "Not authenticated") None.

(** The list slot of the cache is filled exactly when the timestamp slot
    is.  The list slot is empty when [!tasksCache] holds, which is how
    [isCacheValid] reads it: [undefined] is as empty as [null]. *)
Definition coherent (c : Cache) : Prop :=
  falsy_tasks (tasksCache c) = false <-> cacheTimestamp c <> None.

(** The invariant in the words of the specification, for one call: the
    call keeps the two slots filled together or empty together. *)
Definition coherence_as_stated (c : Call) (cache : Cache) : Prop :=
  coherent cache -> coherent (final (run c cache)).

(** The states of the cache that calls of the exported operations lead to,
    from the state in which the module is loaded. *)
Inductive reachable_cache : Cache -> Prop :=
| rc_loaded : reachable_cache empty_cache
| rc_clear cache :
    reachable_cache cache -> reachable_cache (final (clearApiCache cache))
| rc_call c cache :
    reachable_cache cache -> reachable_cache (final (run c cache)).

(** What [apiRequest] settles with once it holds a token. *)
Definition store_outcome {T} (r : FetchResult (Response T)) : Result (Loose T) :=
  match r with
  | FetchRejects e => Rejected e
  | FetchResolves (NotOk b) => Rejected (raised_for b)
  | FetchResolves (NotOkUntyped data engine) => Rejected (raised_for_untyped data engine)
  | FetchResolves (Ok status b) =>
      if (status =? 204)%Z then Resolved Undefined
      else match b with
           | JsonRejects e => Rejected e
           | JsonResolves v => Resolved (Value v)
           end
  | FetchResolves (OkUntyped status data) =>
      if (status =? 204)%Z then Resolved Undefined else Resolved (unchecked data)
  end.

(** [getTasks] answers from the cache instead of going to the network. *)
Definition serves_cache (c : Call) (cache : Cache) : bool :=
  match c with
  | CallGetTasks f now_check _ _ => negb f && isCacheValid now_check cache
  | _ => false
  end.

(** The answer to the list request of a read is a success without a task
    list: 204 No Content, or a body that parses to [null] or to another
    falsy value. *)
Definition answers_without_list (c : Call) : bool :=
  match c with
  | CallGetTasks _ _ _ net =>
      match store_outcome (store_fetch net) with
      | Resolved tasks => falsy_tasks tasks
      | Rejected _ => false
      end
  | _ => false
  end.

Definition forget {A} (r : Result A) : Result unit :=
  match r with
  | Resolved _ => Resolved tt
  | Rejected e => Rejected e
  end.

(** How the request of [c] settles once the token is held. *)
Definition call_store_outcome (c : Call) : Result unit :=
  match c with
  | CallGetTasks _ _ _ net => forget (store_outcome (store_fetch net))
  | CallCreateTask _ net | CallUpdateTask _ _ net
  | CallCompleteTask _ net | CallUncompleteTask _ net =>
      forget (store_outcome (store_fetch net))
  | CallDeleteTask _ net => forget (store_outcome (store_fetch net))
  end.

(** The age of the cache entry is strictly under the TTL. *)
Definition age_under_ttl (now : Z) (c : Cache) : bool :=
  match cacheTimestamp c with
  | Some ts => (now - ts <? CACHE_TTL)%Z
  | None => false
  end.

(** The reading contract in the words of the specification: not forced, a
    list in the cache and an age under the TTL give the cached list without
    any network request; every other read performs one list request,
    replaces the entry and returns what was fetched. *)
Definition read_through_as_stated (f : bool) (now_check now_store : Z)
    (net : Net (list Task)) (cache : Cache) : Prop :=
  let r := getTasks f now_check now_store net cache in
  if negb f && negb (falsy_tasks (tasksCache cache)) && age_under_ttl now_check cache
  then outcome r = Resolved (tasksCache cache) /\ network_calls (trace r) = 0
  else store_calls (trace r) = 1
       /\ exists tasks,
            outcome r = Resolved tasks
            /\ final r = {| tasksCache := tasks; cacheTimestamp := Some now_store |}.

(** The conditions under which the specification sends a read to the
    network: the read is forced, the list slot or the timestamp slot is
    empty, or the entry is at least as old as the TTL. *)
Definition must_fetch (f : bool) (now_check : Z) (cache : Cache) : Prop :=
  f = true
  \/ falsy_tasks (tasksCache cache) = true
  \/ cacheTimestamp cache = None
  \/ exists ts, cacheTimestamp cache = Some ts /\ (CACHE_TTL <= now_check - ts)%Z.

(** Classification of the effects of a logout. *)
Definition is_clear (e : Event) : bool :=
  match e with EvClearCache => true | _ => false end.

Definition is_sign_out (e : Event) : bool :=
  match e with EvSignOut => true | _ => false end.

Definition is_push_login (e : Event) : bool :=
  match e with EvPush p => eqb p (lit "/login") | _ => false end.

Definition is_push (e : Event) : bool :=
  match e with EvPush _ => true | _ => false end.

(** Some effect satisfying [p] occurs strictly before some effect
    satisfying [q]. *)
Fixpoint precedes (p q : Event -> bool) (tr : list Event) : bool :=
  match tr with
  | [] => false
  | e :: tr' => (p e && existsb q tr') || precedes p q tr'
  end.

(** The logout ordering in the words of the specification: the cache is
    invalidated, then the session is terminated, then the login view is
    navigated to, whether or not terminating the session fails. *)
Definition logout_as_stated (tr : list Event) : bool :=
  precedes is_clear is_sign_out tr && precedes is_sign_out is_push_login tr.

(** The failure of a list fetch is of kind [UNAUTHORIZED]. *)
Definition is_unauthorized (e : Thrown) : bool :=
  match error_code e with
  | Some c => eqb c (lit "UNAUTHORIZED")
  | None => false
  end.

(* ===================================================================== *)
(** * Sample answers of the network *)
(* ===================================================================== *)

Module Sample.

(** [{ token: "jwt" }] with status 200. *)
Definition token_ok : FetchResult TokenResponse :=
  FetchResolves {| tr_ok := true;
                   tr_json := JsonResolves (JObj [(lit "token", JStr (lit "jwt"))]) |}.

(** [{ error: "Not authenticated" }] with status 401, the answer of the
    token route without a session. *)
Definition token_401 : FetchResult TokenResponse :=
  FetchResolves {| tr_ok := false;
                   tr_json := JsonResolves
                                (JObj [(lit "error", JStr (lit "Not authenticated"))]) |}.

Definition task1 : Task :=
  {| id := 1; title := lit "Buy milk"; description := None; is_completed := false;
     created_at := lit "2025-01-01T00:00:00Z"; updated_at := lit "2025-01-01T00:00:00Z" |}.

Definition net {T} (tok : FetchResult TokenResponse) (r : FetchResult (Response T)) : Net T :=
  {| token_fetch := tok; store_fetch := r |}.

Definition list_ok : Net (list Task) :=
  net token_ok (FetchResolves (Ok 200 (JsonResolves [task1]))).

Definition task_ok : Net Task :=
  net token_ok (FetchResolves (Ok 200 (JsonResolves task1))).

Definition deleted : Net unit :=
  net token_ok (FetchResolves (Ok 204 (JsonRejects (NativeError (lit "SyntaxError") [])))).

(** The list request answered 204 No Content. *)
Definition list_204 : Net (list Task) :=
  net token_ok (FetchResolves (Ok 204 (JsonRejects (NativeError (lit "SyntaxError") [])))).

(** The list request answered 200 with the body [null]. *)
Definition list_null : Net (list Task) :=
  net token_ok (FetchResolves (OkUntyped 200 JNull)).








Definition list_no_session : Net (list Task) :=
  net token_401 (FetchResolves (Ok 200 (JsonResolves [task1]))).

(** The store rejects the bearer token with a structured 401 body. *)
Definition expired_body : ApiError :=
  {| error := {| code := lit "UNAUTHORIZED";
                 message := lit "Token has expired";
                 details := None |} |}.

Definition list_expired : Net (list Task) :=
  net token_ok (FetchResolves (NotOk (JsonResolves expired_body))).

Definition create_data : TaskCreate :=
  {| tc_title := lit "Buy milk"; tc_description := None |}.

(** An [onSubmit] prop that creates the task through the API client. *)
Definition submit (data : TaskCreate) : M Cache unit :=
  createTask data task_ok ;; ret tt.

Definition form (n : nat) : TaskForm.State :=
  {| TaskForm.f_title := List.repeat 97%N n;
     TaskForm.f_description := [];
     TaskForm.f_error := None |}.

Definition credentials : AuthForm.State :=
  {| AuthForm.email := lit "ann@example.org";
     AuthForm.password := lit "correct horse";
     AuthForm.a_error := None;
     AuthForm.loading := false;
     AuthForm.submittingRef := false;
     AuthForm.awaiting_auth := 0;
     AuthForm.awaiting_verify := 0 |}.

(** The form once these credentials have been submitted for login. *)
Definition submitting : AuthForm.State :=
  {| AuthForm.email := lit "ann@example.org";
     AuthForm.password := lit "correct horse";
     AuthForm.a_error := None;
     AuthForm.loading := true;
     AuthForm.submittingRef := true;
     AuthForm.awaiting_auth := 1;
     AuthForm.awaiting_verify := 0 |}.

Definition sign_in : Event :=
  EvSignInEmail (lit "ann@example.org") (lit "correct horse").

End Sample.

(* ===================================================================== *)
(** * Sequences of calls of the API client *)
(* ===================================================================== *)

(** Calls made one after the other, each against its own answers of the
    network.  The calls are separate invocations from event handlers, so a
    call that rejects does not stop the next one. *)
Fixpoint run_all (calls : list Call) (cache : Cache) : Cache * list Event :=
  match calls with
  | [] => (cache, [])
  | c :: rest =>
      let '(_, cache1, tr1) := run c cache in
      let '(cache2, tr2) := run_all rest cache1 in
      (cache2, tr1 ++ tr2)
  end.

Definition is_token_fetch (e : Event) : bool :=
  match e with EvFetchToken => true | _ => false end.

Definition token_calls (tr : list Event) : nat :=
  List.length (filter is_token_fetch tr).

(** The bearer of a request to the store is a truthy value. *)
Definition bearer_truthy (e : Event) : bool :=
  match e with
  | EvFetchStore _ _ bearer _ => truthy_json bearer
  | _ => true
  end.

(** An unforced read whose clock is within the TTL of [ts]. *)
Definition fresh_read (ts : Z) (c : Call) : bool :=
  match c with
  | CallGetTasks f now_check _ _ => negb f && (now_check - ts <? CACHE_TTL)%Z
  | _ => false
  end.

(** [l], stamped [ts], is what some read among [calls] fetched: the body
    of its list response, with the clock it read afterwards. *)
Definition fetched_by (calls : list Call) (l : list Task) (ts : Z) : Prop :=
  exists f now_check net status,
    In (CallGetTasks f now_check ts net) calls
    /\ store_fetch net = FetchResolves (Ok status (JsonResolves l))
    /\ status <> 204%Z.

(* ===================================================================== *)
(** * Vocabulary for the login / signup form *)
(* ===================================================================== *)

Definition count_events (p : Event -> bool) (tr : list Event) : nat :=
  List.length (filter p tr).

Definition is_push_dashboard (e : Event) : bool :=
  match e with EvPush p => eqb p (lit "/dashboard") | _ => false end.

(** A request to the session provider made for [mode] with credentials
    that pass the form's validation; a sign-up names the user after the
    part of the email before the ["@"]. *)
Definition valid_request (mode : AuthForm.Mode) (e : Event) : bool :=
  match e, mode with
  | EvSignUpEmail em pw name, AuthForm.signup =>
      AuthForm.validateEmail em && AuthForm.validatePassword pw
      && eqb name (AuthForm.email_prefix em)
  | EvSignInEmail em pw, AuthForm.login =>
      AuthForm.validateEmail em && AuthForm.validatePassword pw
  | EvSignUpEmail _ _ _, AuthForm.login => false
  | EvSignInEmail _ _, AuthForm.signup => false
  | _, _ => true
  end.

(** The ways the awaited calls of a submission can settle without a
    session: the auth call throws or reports an error, or the session check
    that follows it fails. *)
Inductive Failure :=
| FailAuth (r : AuthForm.AuthResult)
| FailVerify (tok : FetchResult TokenResponse).

Definition is_failure (f : Failure) : bool :=
  match f with
  | FailAuth AuthForm.AuthOk => false
  | FailAuth _ => true
  | FailVerify tok => negb (AuthForm.verifyAuthenticatedSession tok)
  end.

Definition settle_failure (mode : AuthForm.Mode) (f : Failure) (st : AuthForm.State)
    : AuthForm.State * list Event :=
  match f with
  | FailAuth r => AuthForm.resume_auth mode r st
  | FailVerify tok => AuthForm.resume_verify mode tok st
  end.

(* ===================================================================== *)
(** * Vocabulary for trimmed strings and submitted tasks *)
(* ===================================================================== *)

(** [s] does not start with white space. *)
Definition no_leading_space (s : jsstring) : bool :=
  match s with
  | [] => true
  | c :: _ => negb (is_whitespace c)
  end.

(** [s] neither starts nor ends with white space. *)
Definition trimmed (s : jsstring) : bool :=
  no_leading_space s && no_leading_space (rev s).

(** The data model's constraint on a task to create: a title of 1 to 200
    code units without surrounding white space, and a description that is
    [null] or a non-empty string without surrounding white space. *)
Definition valid_create (d : TaskCreate) : Prop :=
  1 <= List.length (tc_title d) <= 200
  /\ trimmed (tc_title d) = true
  /\ match tc_description d with
     | Some s => truthy s = true /\ trimmed s = true
     | None => True
     end.

(** An [onSubmit] prop that only records what it is given. *)
Definition record_submit (data : TaskCreate) : M (list TaskCreate) unit :=
  modify (fun log => log ++ [data]).

(* ===================================================================== *)
(** * The task item ([components/TaskItem.tsx]) *)
(* ===================================================================== *)

Module TaskItem.

Record State := {
  isEditing : bool;
  editTitle : jsstring;
  editDescription : jsstring;
  isLoading : bool;
  i_error : option jsstring
}.

(** [task.description || ""] *)
Definition description_or_empty (t : Task) : jsstring :=
  match description t with
  | Some d => d
  | None => []
  end.

(** The [useState] initial values for the item of [task]. *)
Definition initial (task : Task) : State :=
  {| isEditing := false; editTitle := title task;
     editDescription := description_or_empty task;
     isLoading := false; i_error := None |}.

Definition setIsEditing (b : bool) : M State unit :=
  modify (fun s => {| isEditing := b; editTitle := editTitle s;
                      editDescription := editDescription s;
                      isLoading := isLoading s; i_error := i_error s |}).

Definition setEditTitle (v : jsstring) : M State unit :=
  modify (fun s => {| isEditing := isEditing s; editTitle := v;
                      editDescription := editDescription s;
                      isLoading := isLoading s; i_error := i_error s |}).

Definition setEditDescription (v : jsstring) : M State unit :=
  modify (fun s => {| isEditing := isEditing s; editTitle := editTitle s;
                      editDescription := v;
                      isLoading := isLoading s; i_error := i_error s |}).

Definition setIsLoading (b : bool) : M State unit :=
  modify (fun s => {| isEditing := isEditing s; editTitle := editTitle s;
                      editDescription := editDescription s;
                      isLoading := b; i_error := i_error s |}).

Definition setError (e : option jsstring) : M State unit :=
  modify (fun s => {| isEditing := isEditing s; editTitle := editTitle s;
                      editDescription := editDescription s;
                      isLoading := isLoading s; i_error := e |}).

(** The [catch] clause shared by the three handlers, up to the fallback
    message. *)
Definition show_error {S} (fallback : jsstring) (err : Thrown) : M (S * State) unit :=
  if instanceof_Error err
  then on_snd (setError (Some (error_message err)))
  else on_snd (setError (Some fallback)).

(** [handleSaveEdit], for the [onUpdate] prop given by the parent.  The
    update carries [title] and [description] and no [is_completed]. *)
Definition handleSaveEdit {S} (task : Task)
    (onUpdate : Z -> TaskUpdate -> M S unit) : M (S * State) unit :=
  st <- get ;;
  on_snd (setError None) ;;
  let trimmedTitle := trim (editTitle (snd st)) in
  if negb (truthy trimmedTitle) then
    on_snd (setError (Some (lit "Title is required")))
  else if (200 <? Z.of_nat (List.length trimmedTitle))%Z then
    on_snd (setError (Some (lit "Title must be 200 characters or less")))
  else
    on_snd (setIsLoading true) ;;
    finally
      (try_catch
         (on_fst (onUpdate (id task)
                    {| tu_title := Some trimmedTitle;
                       tu_description :=
                         Some (TaskForm.string_or_null (trim (editDescription (snd st))));
                       tu_is_completed := None |}) ;;
          on_snd (setIsEditing false))
         (show_error (lit "Failed to update task")))
      (on_snd (setIsLoading false)).

(** [handleCancelEdit] *)
Definition handleCancelEdit (task : Task) : M State unit :=
  setEditTitle (title task) ;;
  setEditDescription (description_or_empty task) ;;
  setError None ;;
  setIsEditing false.

(** [handleDelete]; [confirmed] is the answer of [confirm(...)].  Only the
    [catch] clause resets [isLoading]. *)
Definition handleDelete {S} (task : Task) (confirmed : bool)
    (onDelete : Z -> M S unit) : M (S * State) unit :=
  if negb confirmed then ret tt
  else
    on_snd (setIsLoading true) ;;
    on_snd (setError None) ;;
    try_catch
      (on_fst (onDelete (id task)))
      (fun err =>
         show_error (lit "Failed to delete task") err ;;
         on_snd (setIsLoading false)).

(** [handleToggleComplete], for the [onToggleComplete] prop. *)
Definition handleToggleComplete {S} (task : Task)
    (onToggleComplete : Z -> bool -> M S unit) : M (S * State) unit :=
  on_snd (setIsLoading true) ;;
  on_snd (setError None) ;;
  finally
    (try_catch
       (on_fst (onToggleComplete (id task) (negb (is_completed task))))
       (show_error (lit "Failed to update task")))
    (on_snd (setIsLoading false)).

End TaskItem.

(* ===================================================================== *)
(** * Toast notifications ([components/Toast.tsx]) *)
(* ===================================================================== *)

Module Toast.

Inductive ToastType := success | error | loading.

(** A toast as [showToast] builds it: [duration] is always set. *)
Record Toast := {
  t_id : jsstring;
  t_type : ToastType;
  t_message : jsstring;
  t_duration : Z
}.

(** [a ?? b] for an optional number. *)
Definition nullish_or (a : option Z) (b : Z) : Z :=
  match a with
  | Some z => z
  | None => b
  end.

(** [showToast(type, message, duration)]; [fresh] is what [generateId()]
    returns.  The state is the [toasts] array of the provider. *)
Definition showToast (fresh : jsstring) (type : ToastType) (message : jsstring)
    (duration : option Z) : M (list Toast) jsstring :=
  let toast :=
    {| t_id := fresh; t_type := type; t_message := message;
       t_duration :=
         nullish_or duration (match type with loading => 0 | _ => 4000 end) |} in
  modify (fun prev => prev ++ [toast]) ;;
  ret fresh.

Definition hideToast (i : jsstring) : M (list Toast) unit :=
  modify (fun prev => filter (fun t => negb (eqb (t_id t) i)) prev).

Definition toast_success (fresh message : jsstring) (duration : option Z)
    : M (list Toast) jsstring :=
  showToast fresh success message (Some (nullish_or duration 4000)).

Definition toast_error (fresh message : jsstring) (duration : option Z)
    : M (list Toast) jsstring :=
  showToast fresh error message (Some (nullish_or duration 5000)).

Definition toast_loading (fresh message : jsstring) : M (list Toast) jsstring :=
  showToast fresh loading message (Some 0%Z).

(** The test of the auto-dismiss effect of [ToastItem]:
    [toast.duration && toast.duration > 0]. *)
Definition auto_dismisses (t : Toast) : bool :=
  negb (t_duration t =? 0)%Z && (0 <? t_duration t)%Z.

End Toast.

(* ===================================================================== *)
(** * The token route ([app/api/token/route.ts]) *)
(* ===================================================================== *)

Module TokenRoute.

(** A field of the session object at declared type [A]: the auth library
    gives [null], [undefined] or a value of the type. *)
Inductive Loose (A : Type) :=
| Null
| Undefined
| Value (a : A).
Arguments Null {A}.
Arguments Undefined {A}.
Arguments Value {A} a.

Record SessionUser := {
  u_id : Loose jsstring;
  u_email : Loose jsstring
}.

Record Session := { s_user : Loose SessionUser }.

(** What the route depends on: how [auth.api.getSession] settles, and how
    signing the token for a subject and an email settles. *)
Record Env := {
  getSession : Result (Loose Session);
  sign : jsstring -> Loose jsstring -> Result jsstring
}.

(** [NextResponse.json(body, { status })] *)
Record RouteResponse := {
  status : Z;
  body : Json
}.

Definition await {S A} (r : Result A) : M S A :=
  match r with
  | Resolved a => ret a
  | Rejected e => throw e
  end.

(** [session?.user] *)
Definition session_user (s : Loose Session) : Loose SessionUser :=
  match s with
  | Value s => s_user s
  | _ => Undefined
  end.

Definition not_authenticated : RouteResponse :=
  {| status := 401; body := JObj [(lit "error", JStr (lit "Not authenticated"))] |}.

Definition generation_failed : RouteResponse :=
  {| status := 500; body := JObj [(lit "error", JStr (lit "Failed to generate token"))] |}.

(** [GET()] *)
Definition GET (env : Env) : M unit RouteResponse :=
  try_catch
    (session <- await (getSession env) ;;
     match session_user session with
     | Value user =>
         match u_id user with
         | Value i =>
             if negb (truthy i) then ret not_authenticated
             else
               token <- await (sign env i (u_email user)) ;;
               ret {| status := 200; body := JObj [(lit "token", JStr token)] |}
         | _ => ret not_authenticated
         end
     | _ => ret not_authenticated
     end)
    (fun _ => emit EvConsoleError ;; ret generation_failed).

(** The response as the browser's [fetch] gives it to the client. *)
Definition as_fetched (r : RouteResponse) : FetchResult TokenResponse :=
  FetchResolves {| tr_ok := (200 <=? status r)%Z && (status r <=? 299)%Z;
                   tr_json := JsonResolves (body r) |}.

(** The route's answer, for a request made in [env]. *)
Definition answer (env : Env) : RouteResponse :=
  match outcome (GET env tt) with
  | Resolved r => r
  | Rejected _ => generation_failed
  end.

(** The session names a user with a non-empty id, and signing a token for
    that user gives [token]. *)
Definition issues (env : Env) (token : jsstring) : Prop :=
  exists session user i,
    getSession env = Resolved (Value session)
    /\ s_user session = Value user
    /\ u_id user = Value i
    /\ truthy i = true
    /\ sign env i (u_email user) = Resolved token.

End TokenRoute.

(* ===================================================================== *)
(** * The dashboard's handlers of mutations ([app/dashboard/page.tsx]) *)
(* ===================================================================== *)

Module DashboardActions.

(** The functions given to [setTasks] by the handlers. *)
Inductive Updater :=
| Prepend (newTask : Loose Task)             (* prev => [newTask, ...prev] *)
| Replace (taskId : Z) (updated : Loose Task) (* prev => prev.map(...) *)
| Remove (taskId : Z).                        (* prev => prev.filter(...) *)

(** Calls of [toast.success] and [toast.error]. *)
Inductive Notice :=
| NoticeSuccess (msg : jsstring)
| NoticeError (msg : jsstring).

(** The page's state cells, the updaters queued by [setTasks] and the
    notices sent to the toast provider, oldest first. *)
Record Page := {
  cells : DashboardPage.State;
  updates : list Updater;
  notices : list Notice
}.

Definition on_cells (c : M DashboardPage.State unit) : M Page unit :=
  fun p =>
    let '(r, d, t) := c (cells p) in
    (r, {| cells := d; updates := updates p; notices := notices p |}, t).

Definition setTasks (u : Updater) : M Page unit :=
  modify (fun p => {| cells := cells p; updates := updates p ++ [u];
                      notices := notices p |}).

Definition notify (n : Notice) : M Page unit :=
  modify (fun p => {| cells := cells p; updates := updates p;
                      notices := notices p ++ [n] |}).

Definition setIsCreating (b : bool) : M DashboardPage.State unit :=
  modify (fun d => {| DashboardPage.d_tasks := DashboardPage.d_tasks d;
                      DashboardPage.d_isLoading := DashboardPage.d_isLoading d;
                      DashboardPage.d_isCreating := b;
                      DashboardPage.d_error := DashboardPage.d_error d |}).

(** [err instanceof Error ? err.message : fallback] *)
Definition message_or (fallback : jsstring) (err : Thrown) : jsstring :=
  if instanceof_Error err then error_message err else fallback.

(** The [catch] clause of the four handlers: notify and throw again. *)
Definition report (fallback : jsstring) (err : Thrown) : M (Cache * Page) unit :=
  on_snd (notify (NoticeError (message_or fallback err))) ;;
  throw err.

Definition handleCreateTask (data : TaskCreate) (net : Net Task) : M (Cache * Page) unit :=
  on_snd (on_cells (setIsCreating true)) ;;
  on_snd (on_cells (DashboardPage.setError None)) ;;
  finally
    (try_catch
       (newTask <- on_fst (createTask data net) ;;
        on_snd (setTasks (Prepend newTask)) ;;
        on_snd (notify (NoticeSuccess (lit "Task created successfully"))))
       (report (lit "Failed to create task")))
    (on_snd (on_cells (setIsCreating false))).

Definition handleUpdateTask (taskId : Z) (data : TaskUpdate) (net : Net Task)
    : M (Cache * Page) unit :=
  try_catch
    (updatedTask <- on_fst (updateTask taskId data net) ;;
     on_snd (setTasks (Replace taskId updatedTask)) ;;
     on_snd (notify (NoticeSuccess (lit "Task updated successfully"))))
    (report (lit "Failed to update task")).

Definition handleDeleteTask (taskId : Z) (net : Net unit) : M (Cache * Page) unit :=
  try_catch
    (on_fst (deleteTask taskId net) ;;
     on_snd (setTasks (Remove taskId)) ;;
     on_snd (notify (NoticeSuccess (lit "Task deleted successfully"))))
    (report (lit "Failed to delete task")).

Definition handleToggleComplete (taskId : Z) (isCompleted : bool) (net : Net Task)
    : M (Cache * Page) unit :=
  try_catch
    (updatedTask <- on_fst (if isCompleted then completeTask taskId net
                            else uncompleteTask taskId net) ;;
     on_snd (setTasks (Replace taskId updatedTask)) ;;
     on_snd (notify (NoticeSuccess (if isCompleted then lit "Task marked as complete"
                                    else lit "Task marked as incomplete"))))
    (report (lit "Failed to update task")).

(** The updaters on an array of tasks. *)
Definition prepend (newTask : Task) (prev : list Task) : list Task :=
  newTask :: prev.

Definition replace (taskId : Z) (updated : Task) (prev : list Task) : list Task :=
  map (fun t => if (id t =? taskId)%Z then updated else t) prev.

Definition remove (taskId : Z) (prev : list Task) : list Task :=
  filter (fun t => negb (id t =? taskId)%Z) prev.

(** One use of a handler, and the call of the API client it makes. *)
Inductive Action :=
| ActCreate (data : TaskCreate) (net : Net Task)
| ActUpdate (taskId : Z) (data : TaskUpdate) (net : Net Task)
| ActDelete (taskId : Z) (net : Net unit)
| ActToggle (taskId : Z) (isCompleted : bool) (net : Net Task).

Definition handle (a : Action) : M (Cache * Page) unit :=
  match a with
  | ActCreate data net => handleCreateTask data net
  | ActUpdate i data net => handleUpdateTask i data net
  | ActDelete i net => handleDeleteTask i net
  | ActToggle i b net => handleToggleComplete i b net
  end.

Definition action_call (a : Action) : Call :=
  match a with
  | ActCreate data net => CallCreateTask data net
  | ActUpdate i data net => CallUpdateTask i data net
  | ActDelete i net => CallDeleteTask i net
  | ActToggle i true net => CallCompleteTask i net
  | ActToggle i false net => CallUncompleteTask i net
  end.

Definition fallback_message (a : Action) : jsstring :=
  match a with
  | ActCreate _ _ => lit "Failed to create task"
  | ActUpdate _ _ _ => lit "Failed to update task"
  | ActDelete _ _ => lit "Failed to delete task"
  | ActToggle _ _ _ => lit "Failed to update task"
  end.

Definition success_message (a : Action) : jsstring :=
  match a with
  | ActCreate _ _ => lit "Task created successfully"
  | ActUpdate _ _ _ => lit "Task updated successfully"
  | ActDelete _ _ => lit "Task deleted successfully"
  | ActToggle _ true _ => lit "Task marked as complete"
  | ActToggle _ false _ => lit "Task marked as incomplete"
  end.

(** The updater the handler of [a] queues when its call resolves, built
    from the value the store returned. *)
Definition action_updater (a : Action) : Updater :=
  match a with
  | ActCreate _ net =>
      Prepend (match store_outcome (store_fetch net) with
               | Resolved t => t
               | Rejected _ => Undefined
               end)
  | ActUpdate i _ net | ActToggle i _ net =>
      Replace i (match store_outcome (store_fetch net) with
                 | Resolved t => t
                 | Rejected _ => Undefined
                 end)
  | ActDelete i _ => Remove i
  end.

(** The state cells once the handler of [a] has run: only creation
    touches them, clearing [isCreating] and [error]. *)
Definition settled_cells (a : Action) (d : DashboardPage.State) : DashboardPage.State :=
  match a with
  | ActCreate _ _ =>
      {| DashboardPage.d_tasks := DashboardPage.d_tasks d;
         DashboardPage.d_isLoading := DashboardPage.d_isLoading d;
         DashboardPage.d_isCreating := false;
         DashboardPage.d_error := None |}
  | _ => d
  end.

End DashboardActions.

(* ===================================================================== *)
(** * Facts about the API client *)
(* ===================================================================== *)

Unset Implicit Arguments.

Section ApiClient.

Variable S : Type.

(** [getAuthToken] issues one request to the token endpoint, always
    resolves, and leaves the state alone. *)
Lemma getAuthToken_run (tok : FetchResult TokenResponse) (s : S) :
  getAuthToken tok s = (Resolved (acquired tok), s, [EvFetchToken]).
Proof.
  destruct tok as [e | [ok [e | data]]]; try destruct ok; reflexivity.
Qed.

Lemma apiRequest_run {T} (net : Net T) ep m body (s : S) :
  apiRequest net ep m body s =
  match acquired (token_fetch net) with
  | None => (Rejected unauthorized, s, [EvFetchToken])
  | Some bearer =>
      (store_outcome (store_fetch net), s, [EvFetchToken; EvFetchStore m ep bearer body])
  end.
Proof.
  unfold apiRequest, bind. rewrite getAuthToken_run.
  destruct (acquired (token_fetch net)) as [bearer|]; [|reflexivity].
  destruct (store_fetch net)
    as [e | [[e | [[c msg d]]] | status [e | v] | data engine | status data]];
    cbn; unfold raised_for_untyped; try reflexivity;
    try (destruct (error_member engine data); reflexivity);
    destruct (status =? 204)%Z; reflexivity.
Qed.

End ApiClient.

(** [getTasks], case by case. *)
Lemma getTasks_run f now_check now_store net cache :
  getTasks f now_check now_store net cache =
  if negb f && isCacheValid now_check cache
  then (Resolved (tasksCache cache), cache, [])
  else
    match acquired (token_fetch net) with
    | None => (Rejected unauthorized, cache, [EvFetchToken])
    | Some bearer =>
        match store_outcome (store_fetch net) with
        | Resolved tasks =>
            (Resolved tasks,
             {| tasksCache := tasks; cacheTimestamp := Some now_store |},
             [EvFetchToken; EvFetchStore GET EpTasks bearer None])
        | Rejected e =>
            (Rejected e, cache, [EvFetchToken; EvFetchStore GET EpTasks bearer None])
        end
    end.
Proof.
  unfold getTasks, bind, get. cbn.
  destruct (negb f && isCacheValid now_check cache); [reflexivity|].
  rewrite apiRequest_run.
  destruct (acquired (token_fetch net)); [|reflexivity].
  destruct (store_outcome (store_fetch net)); reflexivity.
Qed.

(** A mutating operation, case by case: the cache is cleared exactly when
    the request resolved, and after it. *)
Lemma mutation_run (c : Call) (cache : Cache) :
  is_mutation c = true ->
  run c cache =
  match acquired (call_token c) with
  | None => (Rejected unauthorized, cache, [EvFetchToken])
  | Some bearer =>
      match call_store_outcome c with
      | Resolved _ =>
          (Resolved tt, empty_cache, [EvFetchToken; call_request c bearer; EvClearCache])
      | Rejected e =>
          (Rejected e, cache, [EvFetchToken; call_request c bearer])
      end
  end.
Proof.
  destruct c; cbn [is_mutation]; try discriminate; intros _;
    cbn [run call_token call_store_outcome call_request];
    unfold settle, createTask, updateTask, deleteTask, completeTask, uncompleteTask;
    unfold bind at 1 2; rewrite apiRequest_run;
    (destruct (acquired (token_fetch net)); [|reflexivity]);
    destruct (store_outcome (store_fetch net)); reflexivity.
Qed.

(** The same for a read. *)
Lemma read_run f now_check now_store net (cache : Cache) :
  run (CallGetTasks f now_check now_store net) cache =
  if negb f && isCacheValid now_check cache
  then (Resolved tt, cache, [])
  else
    match acquired (token_fetch net) with
    | None => (Rejected unauthorized, cache, [EvFetchToken])
    | Some bearer =>
        match store_outcome (store_fetch net) with
        | Resolved tasks =>
            (Resolved tt,
             {| tasksCache := tasks; cacheTimestamp := Some now_store |},
             [EvFetchToken; EvFetchStore GET EpTasks bearer None])
        | Rejected e =>
            (Rejected e, cache, [EvFetchToken; EvFetchStore GET EpTasks bearer None])
        end
    end.
Proof.
  cbn [run]. unfold settle, bind. rewrite getTasks_run.
  destruct (negb f && isCacheValid now_check cache); [reflexivity|].
  destruct (acquired (token_fetch net)); [|reflexivity].
  destruct (store_outcome (store_fetch net)); reflexivity.
Qed.

Lemma request_succeeds_iff {T} (net : Net T) :
  request_succeeds net = true <->
  exists bearer v, acquired (token_fetch net) = Some bearer
                   /\ store_outcome (store_fetch net) = Resolved v.
Proof.
  unfold request_succeeds, store_outcome.
  destruct (acquired (token_fetch net)) as [b|].
  - destruct (store_fetch net)
      as [e | [body | status [e | v] | data engine | status data]];
      try destruct (status =? 204)%Z; cbn; split;
      try discriminate; try (intros (? & ? & _ & ?); discriminate);
      intros _; eauto.
  - split; [discriminate | intros (? & ? & ? & _); discriminate].
Qed.

(* ===================================================================== *)
(** * Token bridge *)
(* ===================================================================== *)

Lemma session_unavailable_acquired tok :
  session_unavailable tok = true -> acquired tok = None.
Proof.
  destruct tok as [e | [ok [e | data]]]; try destruct ok;
    unfold acquired; cbn; intros H; try reflexivity; try discriminate.
  unfold or_null. destruct (optional_get data _) as [v|]; [|reflexivity].
  destruct (truthy_json v); [discriminate | reflexivity].
Qed.

(** C6. [getAuthToken] always resolves: whatever the token endpoint does,
    the caller gets a value and no exception.  On a missing or invalid
    session (transport error, non-OK response, body that does not parse,
    body without a token) that value is [null]. *)
Theorem getAuthToken_absent_not_raised
    (S : Type) (tok : FetchResult TokenResponse) (s : S) :
  (exists v, getAuthToken tok s = (Resolved v, s, [EvFetchToken])) /\
  (session_unavailable tok = true ->
   getAuthToken tok s = (Resolved None, s, [EvFetchToken])).
Proof.
  rewrite getAuthToken_run. split.
  - eauto.
  - intros H. now rewrite (session_unavailable_acquired _ H).
Qed.

Lemma getAuthToken_absent_not_raised_witness :
  session_unavailable Sample.token_401 = true /\
  getAuthToken Sample.token_401 empty_cache = (Resolved None, empty_cache, [EvFetchToken]).
Proof.
  split; [reflexivity|].
  apply (proj2 (getAuthToken_absent_not_raised Cache Sample.token_401 empty_cache)).
  reflexivity.
Defined.

(* ===================================================================== *)
(** * Request contract of the task operations *)
(* ===================================================================== *)

Lemma run_cases (c : Call) :
  is_mutation c = true \/ exists f n1 n2 net, c = CallGetTasks f n1 n2 net.
Proof. destruct c; cbn; eauto 6. Qed.

(** C5. When token acquisition yields no token, no operation sends a
    request to the remote task store.  Every operation that is not
    answered from the cache (each of the five mutations, and a read that
    is forced or finds no valid entry) fails at once with [UNAUTHORIZED],
    having done nothing but ask for the token, and leaves the cache as it
    was.  The one operation that does not fail is the read answered from
    the cache, which asks for no token at all. *)
Theorem absent_token_unauthorized (c : Call) (cache : Cache) :
  acquired (call_token c) = None ->
  store_calls (trace (run c cache)) = 0
  /\ (serves_cache c cache = false ->
      run c cache = (Rejected unauthorized, cache, [EvFetchToken]))
  /\ (serves_cache c cache = true -> run c cache = (Resolved tt, cache, [])).
Proof.
  intros Htok.
  destruct (run_cases c) as [Hm | (f & n1 & n2 & net & ->)].
  - rewrite (mutation_run c cache Hm), Htok.
    split; [reflexivity|]. split; [reflexivity|].
    destruct c; cbn [is_mutation serves_cache] in *; discriminate.
  - cbn [call_token serves_cache] in *. rewrite read_run, Htok.
    destruct (negb f && isCacheValid n1 cache);
      (split; [reflexivity|]); split; intros H; try reflexivity; discriminate.
Qed.

Lemma absent_token_unauthorized_witness :
  acquired (call_token (CallCreateTask Sample.create_data
                          (Sample.net Sample.token_401 (FetchRejects NonError)))) = None /\
  serves_cache (CallCreateTask Sample.create_data
                  (Sample.net Sample.token_401 (FetchRejects NonError))) empty_cache
  = false /\
  run (CallCreateTask Sample.create_data
         (Sample.net Sample.token_401 (FetchRejects NonError))) empty_cache
  = (Rejected unauthorized, empty_cache, [EvFetchToken]).
Proof.
  split; [reflexivity|]. split; [reflexivity|].
  apply (absent_token_unauthorized
           (CallCreateTask Sample.create_data
              (Sample.net Sample.token_401 (FetchRejects NonError))) empty_cache).
  - reflexivity.
  - reflexivity.
Defined.

Lemma call_succeeds_outcome (c : Call) :
  call_succeeds c = true ->
  exists bearer, acquired (call_token c) = Some bearer
                 /\ call_store_outcome c = Resolved tt.
Proof.
  destruct c; cbn [call_succeeds call_token call_store_outcome]; intros H;
    apply request_succeeds_iff in H; destruct H as (b & v & Hb & Hv);
    exists b; rewrite Hv; auto.
Qed.

(** A read on the emptied cache goes through the request pipeline exactly
    as a forced read does. *)
Lemma getTasks_on_empty f now_check now_store net :
  getTasks f now_check now_store net empty_cache =
  getTasks true now_check now_store net empty_cache.
Proof.
  rewrite !getTasks_run. cbn [isCacheValid empty_cache tasksCache falsy_tasks orb].
  now rewrite andb_false_r.
Qed.

(** C1. A mutating operation whose remote call succeeds returns with both
    slots of the cache cleared, the clearing being its last effect, after
    the request to the store.  A [getTasks] issued right after it is not
    served from the cache: it behaves as a forced read, starts with a
    request to the token endpoint and, when a token is obtained, sends the
    list request to the store. *)
Theorem mutation_clears_cache (c : Call) (cache : Cache) :
  is_mutation c = true ->
  call_succeeds c = true ->
  (exists bearer,
     run c cache =
     (Resolved tt, {| tasksCache := Null; cacheTimestamp := None |},
      [EvFetchToken; call_request c bearer; EvClearCache]))
  /\
  (forall now_check now_store net,
     let next := getTasks false now_check now_store net (final (run c cache)) in
     next = getTasks true now_check now_store net (final (run c cache))
     /\ (exists tr, trace next = EvFetchToken :: tr)
     /\ (forall bearer, acquired (token_fetch net) = Some bearer ->
         trace next = [EvFetchToken; EvFetchStore GET EpTasks bearer None])).
Proof.
  intros Hm Hs.
  destruct (call_succeeds_outcome c Hs) as (b & Hb & Ho).
  rewrite (mutation_run c cache Hm), Hb, Ho.
  split; [eexists; reflexivity|].
  intros now_check now_store net. cbn [final fst snd]. cbn zeta.
  fold empty_cache. rewrite getTasks_on_empty, getTasks_run. cbn [negb andb].
  repeat split.
  - destruct (acquired (token_fetch net)); [|eexists; reflexivity].
    destruct (store_outcome (store_fetch net)); eexists; reflexivity.
  - intros b' ->. destruct (store_outcome (store_fetch net)); reflexivity.
Qed.

Lemma mutation_clears_cache_witness :
  is_mutation (CallDeleteTask 1 Sample.deleted) = true /\
  call_succeeds (CallDeleteTask 1 Sample.deleted) = true /\
  final (run (CallDeleteTask 1 Sample.deleted)
           {| tasksCache := Value [Sample.task1]; cacheTimestamp := Some 1000%Z |})
  = empty_cache.
Proof.
  split; [reflexivity|]. split; [reflexivity|].
  destruct (mutation_clears_cache (CallDeleteTask 1 Sample.deleted)
              {| tasksCache := Value [Sample.task1]; cacheTimestamp := Some 1000%Z |}
              eq_refl eq_refl) as [(b & Hrun) _].
  now rewrite Hrun.
Defined.









(* ===================================================================== *)
(** * Task read cache *)
(* ===================================================================== *)

Lemma isCacheValid_fresh now l ts :
  ts <> 0%Z -> (now - ts < CACHE_TTL)%Z ->
  isCacheValid now {| tasksCache := Value l; cacheTimestamp := Some ts |} = true.
Proof.
  intros Hts Hage. unfold isCacheValid. cbn.
  destruct (Z.eqb_spec ts 0); [contradiction|].
  now apply Z.ltb_lt.
Qed.

Lemma isCacheValid_must_fetch f now cache :
  must_fetch f now cache -> negb f && isCacheValid now cache = false.
Proof.
  unfold isCacheValid.
  intros [-> | [H | [H | (ts & H & Hage)]]]; [reflexivity | | |];
    rewrite H; destruct f; cbn; try reflexivity.
  - now rewrite orb_true_r.
  - destruct (falsy_tasks (tasksCache cache) || (ts =? 0)%Z); [reflexivity|].
    apply Z.ltb_ge. exact Hage.
Qed.

(** C2, as the specification states it, fails on a forced read without a
    session (no list request is made, nothing is returned, the entry stays)
    and on an entry stamped [0] (it is never served). *)
Lemma read_through_counterexample :
  ~ read_through_as_stated true 0 1000 Sample.list_no_session empty_cache
  /\ ~ read_through_as_stated false 5 1000 Sample.list_ok
         {| tasksCache := Value [Sample.task1]; cacheTimestamp := Some 0%Z |}.
Proof.
  split.
  - intros [H _]. vm_compute in H. discriminate.
  - intros [_ H]. vm_compute in H. discriminate.
Qed.

(** C2, amended.  A read that is not forced, on an entry with a list and a
    non-zero timestamp younger than the TTL, returns the cached list and
    touches neither the network nor the cache.  A read that is forced, or
    finds a slot empty, or an entry at least as old as the TTL, runs the
    request pipeline: without a token it rejects with [UNAUTHORIZED] and
    sends nothing to the store; with a token it sends one list request,
    and then either replaces both slots together and returns what was
    fetched, or rejects and leaves the entry as it was.  So when a read has
    fetched a list, a following unforced read within the TTL of the new
    timestamp sends nothing: the two reads make one list request. *)
Theorem getTasks_read_through (f : bool) (now_check now_store : Z)
    (net : Net (list Task)) (cache : Cache) :
  let r := getTasks f now_check now_store net cache in
  (forall l ts,
     f = false -> cache = {| tasksCache := Value l; cacheTimestamp := Some ts |} ->
     ts <> 0%Z -> (now_check - ts < CACHE_TTL)%Z ->
     r = (Resolved (Value l), cache, []))
  /\
  (must_fetch f now_check cache ->
   match acquired (token_fetch net) with
   | None => r = (Rejected unauthorized, cache, [EvFetchToken])
   | Some bearer =>
       match store_outcome (store_fetch net) with
       | Resolved tasks =>
           r = (Resolved tasks,
                {| tasksCache := tasks; cacheTimestamp := Some now_store |},
                [EvFetchToken; EvFetchStore GET EpTasks bearer None])
       | Rejected e =>
           r = (Rejected e, cache, [EvFetchToken; EvFetchStore GET EpTasks bearer None])
       end
   end)
  /\
  (forall l now_check' now_store' net',
     must_fetch f now_check cache ->
     outcome r = Resolved (Value l) ->
     now_store <> 0%Z -> (now_check' - now_store < CACHE_TTL)%Z ->
     let r' := getTasks false now_check' now_store' net' (final r) in
     r' = (Resolved (Value l), final r, [])
     /\ store_calls (trace r ++ trace r') = 1).
Proof.
  cbn zeta. rewrite getTasks_run. split; [|split].
  - intros l ts -> -> Hts Hage.
    now rewrite (isCacheValid_fresh now_check l ts Hts Hage).
  - intros Hm. rewrite (isCacheValid_must_fetch f now_check cache Hm).
    destruct (acquired (token_fetch net)); [|reflexivity].
    destruct (store_outcome (store_fetch net)); reflexivity.
  - intros l now_check' now_store' net' Hm.
    rewrite (isCacheValid_must_fetch f now_check cache Hm).
    destruct (acquired (token_fetch net)); [|discriminate].
    destruct (store_outcome (store_fetch net)) as [tasks|e]; [|discriminate].
    cbn [outcome final trace fst snd]. intros [= ->] Hts Hage.
    rewrite getTasks_run. cbn [negb andb].
    rewrite (isCacheValid_fresh now_check' l now_store Hts Hage). split; reflexivity.
Qed.

Lemma getTasks_read_through_witness :
  must_fetch true 0 empty_cache /\
  outcome (getTasks true 0 1000 Sample.list_ok empty_cache) = Resolved (Value [Sample.task1]) /\
  (1000 <> 0)%Z /\ (2000 - 1000 < CACHE_TTL)%Z /\
  getTasks false 2000 3000 Sample.list_no_session
    (final (getTasks true 0 1000 Sample.list_ok empty_cache))
  = (Resolved (Value [Sample.task1]),
     {| tasksCache := Value [Sample.task1]; cacheTimestamp := Some 1000%Z |}, []).
Proof.
  assert (Hm : must_fetch true 0 empty_cache) by (left; reflexivity).
  assert (Hts : (1000 <> 0)%Z) by lia.
  assert (Hage : (2000 - 1000 < CACHE_TTL)%Z) by (unfold CACHE_TTL; lia).
  repeat (split; [assumption || reflexivity|]).
  destruct (getTasks_read_through true 0 1000 Sample.list_ok empty_cache)
    as (_ & _ & Htwo).
  exact (proj1 (Htwo [Sample.task1] 2000%Z 3000%Z Sample.list_no_session
                  Hm eq_refl Hts Hage)).
Defined.

(* ===================================================================== *)
(** * Coherence of the two cache slots *)
(* ===================================================================== *)

Lemma coherent_empty : coherent empty_cache.
Proof. unfold coherent; cbn; split; intros H; [discriminate | now contradiction H]. Qed.

Lemma coherent_stored (tasks : Loose (list Task)) (ts : Z) :
  falsy_tasks tasks = false ->
  coherent {| tasksCache := tasks; cacheTimestamp := Some ts |}.
Proof. intros H. unfold coherent; cbn; split; intros _; [discriminate | exact H]. Qed.

(** A call keeps the slots coherent unless it is a read whose list request
    is answered without a task list. *)
Lemma run_preserves_coherent (c : Call) (cache : Cache) :
  answers_without_list c = false ->
  coherent cache -> coherent (final (run c cache)).
Proof.
  intros Hlist Hc.
  destruct (run_cases c) as [Hm | (f & n1 & n2 & net & ->)].
  - rewrite (mutation_run c cache Hm).
    destruct (acquired (call_token c)); [|exact Hc].
    destruct (call_store_outcome c); [exact coherent_empty | exact Hc].
  - rewrite read_run. cbn [answers_without_list] in Hlist.
    destruct (negb f && isCacheValid n1 cache); [exact Hc|].
    destruct (acquired (token_fetch net)); [|exact Hc].
    destruct (store_outcome (store_fetch net)) as [tasks | e]; [|exact Hc].
    apply coherent_stored. exact Hlist.
Qed.

Lemma isCacheValid_half (now : Z) (cache : Cache) :
  falsy_tasks (tasksCache cache) = true \/ cacheTimestamp cache = None ->
  isCacheValid now cache = false.
Proof.
  unfold isCacheValid. intros [H | H]; rewrite H; cbn; try reflexivity.
  now rewrite orb_true_r.
Qed.

(** A read that goes to the store with a token and is answered without a
    task list stores the empty list slot beside the new timestamp. *)
Lemma read_without_list (c : Call) (cache : Cache) :
  answers_without_list c = true ->
  serves_cache c cache = false ->
  (exists bearer, acquired (call_token c) = Some bearer) ->
  falsy_tasks (tasksCache (final (run c cache))) = true
  /\ cacheTimestamp (final (run c cache)) <> None.
Proof.
  destruct c as [f n1 n2 net | | | | |]; cbn [answers_without_list]; try discriminate.
  cbn [serves_cache call_token]. intros Hlist Hserve (bearer & Htok).
  rewrite read_run, Hserve, Htok.
  destruct (store_outcome (store_fetch net)) as [tasks | e]; [|discriminate].
  split; [exact Hlist | discriminate].
Qed.

(** In every state the cache can reach, a filled list slot has a
    timestamp beside it. *)
Lemma reachable_filled_stamped (cache : Cache) :
  reachable_cache cache ->
  falsy_tasks (tasksCache cache) = false -> cacheTimestamp cache <> None.
Proof.
  induction 1 as [| cache _ _ | c cache _ IH]; try discriminate.
  destruct (run_cases c) as [Hm | (f & n1 & n2 & net & ->)].
  - rewrite (mutation_run c cache Hm).
    destruct (acquired (call_token c)); [|exact IH].
    destruct (call_store_outcome c); [discriminate | exact IH].
  - rewrite read_run.
    destruct (negb f && isCacheValid n1 cache); [exact IH|].
    destruct (acquired (token_fetch net)); [|exact IH].
    destruct (store_outcome (store_fetch net)) as [tasks | e]; [|exact IH].
    intros _. discriminate.
Qed.

(** A list request that the store answers with 204 No Content leaves
    [undefined] in the list slot next to the new timestamp, and one that
    it answers with the body [null] leaves [null] there; such an entry is
    not valid, whatever the clock. *)
Lemma getTasks_without_body (now : Z) :
  let r := getTasks true 0 1000 Sample.list_204 empty_cache in
  let r' := getTasks true 0 1000 Sample.list_null empty_cache in
  final r = {| tasksCache := Undefined; cacheTimestamp := Some 1000%Z |}
  /\ isCacheValid now (final r) = false
  /\ final r' = {| tasksCache := Null; cacheTimestamp := Some 1000%Z |}
  /\ isCacheValid now (final r') = false.
Proof. repeat split; reflexivity. Qed.

(** C10, as the specification states it, fails on a read whose list
    request the store answers without a task list: after 204 No Content
    [getTasks] stores [undefined], after the body [null] it stores [null],
    each beside a new timestamp. *)
Lemma coherence_counterexample :
  ~ coherence_as_stated (CallGetTasks true 0 1000 Sample.list_204) empty_cache
  /\ ~ coherence_as_stated (CallGetTasks true 0 1000 Sample.list_null) empty_cache.
Proof.
  split; intros H; specialize (H coherent_empty); vm_compute in H;
    destruct H as [_ H]; assert (Hf : true = false) by (apply H; discriminate);
    discriminate.
Qed.

(** C10, amended.  The list slot is filled exactly when the timestamp slot
    is: this holds when the module is loaded and after [clearApiCache], the
    five mutating operations preserve it, and [getTasks] preserves it
    unless the store answers its list request with a success that carries
    no task list (204 No Content, or a body that is [null] or falsy); a
    read that got such an answer has stored the empty list slot beside a
    new timestamp.  In
    every state the cache can reach, a filled list slot has a timestamp
    beside it.  In any state at all, [isCacheValid] is false as soon as
    one of the two slots is empty, and a read on such a cache behaves as
    a forced read, so a half-filled cache is never served. *)
Theorem cache_coherence (c : Call) (cache : Cache) :
  coherent empty_cache
  /\ coherent (final (clearApiCache cache))
  /\ (is_mutation c = true -> coherent cache -> coherent (final (run c cache)))
  /\ (answers_without_list c = false -> coherent cache -> coherent (final (run c cache)))
  /\ (answers_without_list c = true -> serves_cache c cache = false ->
      (exists bearer, acquired (call_token c) = Some bearer) ->
      falsy_tasks (tasksCache (final (run c cache))) = true
      /\ cacheTimestamp (final (run c cache)) <> None)
  /\ (reachable_cache cache ->
      falsy_tasks (tasksCache cache) = false -> cacheTimestamp cache <> None)
  /\ (falsy_tasks (tasksCache cache) = true \/ cacheTimestamp cache = None ->
      (forall now, isCacheValid now cache = false)
      /\ forall now_check now_store net,
           getTasks false now_check now_store net cache
           = getTasks true now_check now_store net cache).
Proof.
  split; [exact coherent_empty|]. split; [exact coherent_empty|].
  split; [|split; [|split; [|split]]].
  - intros Hm. apply run_preserves_coherent.
    destruct c; cbn [is_mutation] in Hm; try discriminate; reflexivity.
  - exact (run_preserves_coherent c cache).
  - exact (read_without_list c cache).
  - exact (reachable_filled_stamped cache).
  - intros Hhalf. split.
    + intros now. exact (isCacheValid_half now cache Hhalf).
    + intros now_check now_store net.
      rewrite !getTasks_run, (isCacheValid_half now_check cache Hhalf). reflexivity.
Qed.

Lemma cache_coherence_witness :
  answers_without_list (CallGetTasks true 0 1000 Sample.list_ok) = false
  /\ coherent empty_cache
  /\ coherent (final (run (CallGetTasks true 0 1000 Sample.list_ok) empty_cache))
  /\ cacheTimestamp {| tasksCache := Value [Sample.task1]; cacheTimestamp := None |}
     = None
  /\ isCacheValid 5 {| tasksCache := Value [Sample.task1]; cacheTimestamp := None |}
     = false.
Proof.
  split; [reflexivity|].
  split; [exact (proj1 (cache_coherence (CallGetTasks true 0 1000 Sample.list_ok)
                          empty_cache))|].
  split.
  - exact (proj1 (proj2 (proj2 (proj2
             (cache_coherence (CallGetTasks true 0 1000 Sample.list_ok) empty_cache))))
             eq_refl
             (proj1 (cache_coherence (CallGetTasks true 0 1000 Sample.list_ok)
                       empty_cache))).
  - split; [reflexivity|].
    exact (proj1 (proj2 (proj2 (proj2 (proj2 (proj2 (proj2
             (cache_coherence (CallDeleteTask 1 Sample.deleted)
                {| tasksCache := Value [Sample.task1]; cacheTimestamp := None |}))))))
             (or_intror eq_refl)) 5%Z).
Defined.

(* ===================================================================== *)
(** * Dashboard controller: list fetch *)
(* ===================================================================== *)

Import DashboardPage.

(** The test made by the [catch] clause of [fetchTasks]. *)
Lemma fetchTasks_run (now : Z) (net : Net (list Task)) (cache : Cache) (d : State) :
  fetchTasks now net (cache, d) =
  match getTasks true now now net cache with
  | (Resolved fetched, cache', tr) =>
      (Resolved tt,
       (cache', {| d_tasks := fetched; d_isLoading := false;
                   d_isCreating := d_isCreating d; d_error := None |}),
       tr)
  | (Rejected err, cache', tr) =>
      if instanceof_Error err then
        if includes (error_message err) (lit "UNAUTHORIZED")
           || includes (error_message err) (lit "Not authenticated")
        then (Resolved tt,
              (cache', {| d_tasks := d_tasks d; d_isLoading := false;
                          d_isCreating := d_isCreating d; d_error := None |}),
              tr ++ [EvPush (lit "/login")])
        else (Resolved tt,
              (cache', {| d_tasks := d_tasks d; d_isLoading := false;
                          d_isCreating := d_isCreating d;
                          d_error := Some (error_message err) |}),
              tr)
      else (Resolved tt,
            (cache', {| d_tasks := d_tasks d; d_isLoading := false;
                        d_isCreating := d_isCreating d;
                        d_error := Some (lit "Failed to load tasks") |}),
            tr)
  end.
Proof.
  unfold fetchTasks, finally, try_catch, bind, on_fst, on_snd,
    setError, setTasks, setIsLoading, modify, router_push, emit.
  cbn [d_tasks d_isLoading d_isCreating d_error].
  destruct (getTasks true now now net cache) as [[[fetched | err] cache'] tr].
  - cbn. now rewrite !app_nil_r.
  - cbn. destruct (instanceof_Error err); cbn.
    + destruct (includes (error_message err) (lit "UNAUTHORIZED")
                || includes (error_message err) (lit "Not authenticated")); cbn;
        rewrite <- ?app_assoc, ?app_nil_r; reflexivity.
    + now rewrite !app_nil_r.
Qed.

(** The failure raised when no token can be acquired leads to the login
    view, with no task data and no banner. *)
Lemma fetchTasks_without_session (now : Z) (net : Net (list Task)) (cache : Cache) (d : State) :
  acquired (token_fetch net) = None ->
  fetchTasks now net (cache, d) =
  (Resolved tt,
   (cache, {| d_tasks := d_tasks d; d_isLoading := false;
              d_isCreating := d_isCreating d; d_error := None |}),
   [EvFetchToken; EvPush (lit "/login")]).
Proof.
  intros Htok. rewrite fetchTasks_run, getTasks_run, Htok. reflexivity.
Qed.

(** The banner's button issues the forced fetch again. *)
Lemma try_again_forced (now : Z) (net : Net (list Task)) (cache : Cache) (d : State) :
  exists tr, trace (try_again now net (cache, d)) = EvFetchToken :: tr.
Proof.
  unfold try_again. rewrite fetchTasks_run, getTasks_run. cbn [negb andb].
  destruct (acquired (token_fetch net)).
  - destruct (store_outcome (store_fetch net)) as [v | e]; [eexists; reflexivity|].
    destruct (instanceof_Error e); [|eexists; reflexivity].
    destruct (includes _ _ || includes _ _); eexists; reflexivity.
  - eexists; reflexivity.
Qed.

(** C3, on the code.  The store rejects the bearer token with status 401
    and the body [{error: {code: "UNAUTHORIZED", message: "Token has
    expired"}}].  [getTasks] raises an error of kind [UNAUTHORIZED], yet
    [fetchTasks] does not navigate: it shows the message in the banner.
    The test reads the message of the error, not its code. *)
Theorem fetchTasks_unauthorized_not_redirected :
  let r := fetchTasks 1000 Sample.list_expired (empty_cache, initial) in
  (exists err,
     outcome (getTasks true 1000 1000 Sample.list_expired empty_cache) = Rejected err
     /\ is_unauthorized err = true)
  /\ existsb is_push (trace r) = false
  /\ d_error (snd (final r)) = Some (lit "Token has expired")
  /\ banner_shown (snd (final r)) = true.
Proof.
  cbn zeta. split; [|repeat split].
  eexists. split; reflexivity.
Qed.

(** The converse defect: a failure of another kind whose message happens to
    contain ["Not authenticated"] sends the user to the login view. *)
Lemma fetchTasks_other_kind_redirected :
  let body := {| error := {| code := lit "FORBIDDEN";
                             message := lit "Not authenticated for this list";
                             details := None |} |} in
  let net := Sample.net Sample.token_ok (FetchResolves (NotOk (JsonResolves body))) in
  let r := fetchTasks 1000 net (empty_cache, initial) in
  trace r = [EvFetchToken; EvFetchStore GET EpTasks (JStr (lit "jwt")) None;
             EvPush (lit "/login")]
  /\ d_error (snd (final r)) = None.
Proof. split; reflexivity. Qed.

(* ===================================================================== *)
(** * Logout *)
(* ===================================================================== *)

(** C4, as the specification states it, fails for the logout button: it
    terminates the session before it invalidates the cache. *)
Lemma logout_order_counterexample :
  logout_as_stated
    (trace (LogoutButton.handleLogout SignOutResolves (empty_cache, false))) = false.
Proof. reflexivity. Qed.

(** On the dashboard, a [signOut] that throws ends the logout before the
    redirect. *)
Lemma dashboard_logout_signOut_throws (e : Thrown) (cache : Cache) (d : State) :
  handleLogout (SignOutRejects e) (cache, d)
  = (Rejected e, (empty_cache, d), [EvClearCache; EvSignOut]).
Proof. reflexivity. Qed.

(** C4, amended.  Every logout invalidates the cache and attempts to
    terminate the session, both before any navigation.  The dashboard's
    logout invalidates the cache first, then terminates the session, and
    navigates to the login view once [signOut] has resolved.  The logout
    button terminates the session first, then invalidates the cache and
    navigates to the login view; it does the last two also when [signOut]
    throws. *)
Theorem logout_teardown (o : SignOutResult) (cache : Cache) (d : State) (l : bool) :
  let dash := handleLogout o (cache, d) in
  let button := LogoutButton.handleLogout o (cache, l) in
  (fst (final dash) = empty_cache
   /\ (exists rest, trace dash = EvClearCache :: EvSignOut :: rest
                    /\ existsb is_clear rest = false
                    /\ existsb is_sign_out rest = false)
   /\ match o with
      | SignOutResolves => trace dash = [EvClearCache; EvSignOut; EvPush (lit "/login")]
      | SignOutRejects _ => True
      end)
  /\
  (final button = (empty_cache, false)
   /\ outcome button = Resolved tt
   /\ exists mid, trace button = EvSignOut :: mid ++ [EvClearCache; EvPush (lit "/login")]
                  /\ existsb is_push mid = false
                  /\ match o with
                     | SignOutResolves => mid = []
                     | SignOutRejects _ => mid = [EvConsoleError]
                     end).
Proof.
  cbn zeta. destruct o as [|e]; (split; [split; [reflexivity | split] | ]).
  - eexists; repeat split.
  - reflexivity.
  - repeat split. exists []. repeat split.
  - eexists; repeat split.
  - exact I.
  - repeat split. exists [EvConsoleError]. repeat split.
Qed.

(* ===================================================================== *)
(** * Task form: title validation *)
(* ===================================================================== *)

Lemma truthy_length (s : jsstring) : truthy s = false <-> List.length s = 0.
Proof. destruct s; cbn; split; congruence. Qed.

Lemma validateTitle_cases (value : jsstring) :
  let n := List.length (trim value) in
  (n = 0 -> TaskForm.validateTitle value = Some (lit "Title is required"))
  /\ (200 < n ->
      TaskForm.validateTitle value = Some (lit "Title must be 200 characters or less"))
  /\ (1 <= n <= 200 -> TaskForm.validateTitle value = None).
Proof.
  cbn zeta. unfold TaskForm.validateTitle.
  destruct (trim value) as [|c t] eqn:E; cbn [truthy negb List.length].
  - repeat split; intros; try reflexivity; lia.
  - repeat split; intros H; try lia.
    + destruct (Z.ltb_spec 200 (Z.of_nat (S (List.length t)))); [reflexivity | lia].
    + destruct (Z.ltb_spec 200 (Z.of_nat (S (List.length t)))); [lia | reflexivity].
Qed.

(** C8. A title whose trimmed length is 0 or more than 200 is refused by
    [handleSubmit] with a validation message, [onSubmit] is not called and
    nothing else happens.  A title whose trimmed length is between 1 and
    200 passes [validateTitle] and is handed to [onSubmit], trimmed, with
    the trimmed description or [null]; the form is cleared if [onSubmit]
    resolves and shows the error if it rejects. *)
Theorem title_validation_gate (S : Type) (onSubmit : TaskCreate -> M S unit)
    (s : S) (f : TaskForm.State) :
  let n := List.length (trim (TaskForm.f_title f)) in
  let data := {| tc_title := trim (TaskForm.f_title f);
                 tc_description :=
                   TaskForm.string_or_null (trim (TaskForm.f_description f)) |} in
  (n = 0 \/ 200 < n ->
   exists msg,
     TaskForm.validateTitle (TaskForm.f_title f) = Some msg
     /\ truthy msg = true
     /\ TaskForm.handleSubmit onSubmit (s, f)
        = (Resolved tt,
           (s, {| TaskForm.f_title := TaskForm.f_title f;
                  TaskForm.f_description := TaskForm.f_description f;
                  TaskForm.f_error := Some msg |}),
           []))
  /\
  (1 <= n <= 200 ->
   TaskForm.validateTitle (TaskForm.f_title f) = None
   /\ TaskForm.handleSubmit onSubmit (s, f)
      = match onSubmit data s with
        | (Resolved _, s', tr) =>
            (Resolved tt,
             (s', {| TaskForm.f_title := []; TaskForm.f_description := [];
                     TaskForm.f_error := None |}),
             tr)
        | (Rejected e, s', tr) =>
            (Resolved tt,
             (s', {| TaskForm.f_title := TaskForm.f_title f;
                     TaskForm.f_description := TaskForm.f_description f;
                     TaskForm.f_error :=
                       Some (if instanceof_Error e then error_message e
                             else lit "Failed to create task") |}),
             tr)
        end).
Proof.
  cbn zeta.
  destruct (validateTitle_cases (TaskForm.f_title f)) as (H0 & Hbig & Hok).
  cbn zeta in *. split.
  - intros Hbad.
    assert (Hv : exists msg, TaskForm.validateTitle (TaskForm.f_title f) = Some msg
                             /\ truthy msg = true).
    { destruct Hbad as [H | H]; [rewrite (H0 H) | rewrite (Hbig H)];
        eexists; split; reflexivity. }
    destruct Hv as (msg & Hv & Ht). exists msg. repeat split; try assumption.
    unfold TaskForm.handleSubmit, bind, get, on_snd, TaskForm.setError, modify.
    cbn [snd fst]. rewrite Hv. cbn [TaskForm.truthy_or_null]. rewrite Ht.
    reflexivity.
  - intros Hn. split; [exact (Hok Hn)|].
    unfold TaskForm.handleSubmit, bind, get, try_catch, on_fst, on_snd,
      TaskForm.setError, TaskForm.setTitle, TaskForm.setDescription, modify.
    cbn [snd fst]. rewrite (Hok Hn). cbn [TaskForm.truthy_or_null].
    cbn [TaskForm.f_title TaskForm.f_description TaskForm.f_error app].
    destruct (onSubmit _ s) as [[[u | e] s'] tr].
    + cbn. now rewrite !app_nil_r.
    + cbn. destruct (instanceof_Error e); cbn; now rewrite !app_nil_r.
Qed.

Lemma title_validation_gate_witness :
  (200 < List.length (trim (TaskForm.f_title (Sample.form 201)))
   /\ TaskForm.handleSubmit Sample.submit (empty_cache, Sample.form 201)
      = (Resolved tt,
         (empty_cache,
          {| TaskForm.f_title := TaskForm.f_title (Sample.form 201);
             TaskForm.f_description := [];
             TaskForm.f_error := Some (lit "Title must be 200 characters or less") |}),
         []))
  /\
  (1 <= List.length (trim (TaskForm.f_title (Sample.form 200))) <= 200
   /\ trace (TaskForm.handleSubmit Sample.submit (empty_cache, Sample.form 200))
      = [EvFetchToken;
         EvFetchStore POST EpTasks (JStr (lit "jwt"))
           (Some (BodyCreate {| tc_title := List.repeat 97%N 200;
                                tc_description := None |}));
         EvClearCache]).
Proof.
  assert (L201 : List.length (trim (TaskForm.f_title (Sample.form 201))) = 201)
    by (vm_compute; reflexivity).
  assert (L200 : List.length (trim (TaskForm.f_title (Sample.form 200))) = 200)
    by (vm_compute; reflexivity).
  assert (H201 : 200 < List.length (trim (TaskForm.f_title (Sample.form 201))))
    by (rewrite L201; lia).
  assert (H200 : 1 <= List.length (trim (TaskForm.f_title (Sample.form 200))) <= 200)
    by (rewrite L200; lia).
  split; (split; [assumption|]).
  - destruct (proj1 (title_validation_gate Cache Sample.submit empty_cache
                       (Sample.form 201)) (or_intror H201))
      as (msg & Hv & _ & Hrun).
    rewrite Hrun. vm_compute in Hv. injection Hv as <-. vm_compute. reflexivity.
  - destruct (proj2 (title_validation_gate Cache Sample.submit empty_cache
                       (Sample.form 200)) H200) as (_ & Hrun).
    rewrite Hrun. vm_compute. reflexivity.
Defined.

(* ===================================================================== *)
(** * Login / signup form: double-submit guard *)
(* ===================================================================== *)

Import AuthForm.

(** The guard flag is set exactly while a call of [handleSubmit] is
    suspended, and at most one call is. *)
Lemma guard_tracks_flight (mode : Mode) (st : AuthForm.State) (tr : list Event) :
  reachable mode st tr ->
  in_flight st = if submittingRef st then 1 else 0.
Proof.
  induction 1 as [| st tr i st' evs Hreach IH Hstep]; [reflexivity|].
  unfold in_flight in *.
  destruct Hstep as [st v | st v | st | st r Hpos | st tok Hpos];
    cbn [awaiting_auth awaiting_verify submittingRef]; try exact IH.
  - unfold handleSubmit.
    destruct (submittingRef st) eqn:Hs; cbn [fst]; [now rewrite Hs|].
    destruct (negb (validateEmail (email st)));
      [cbn; now rewrite Hs|].
    destruct (negb (validatePassword (password st)));
      [cbn; now rewrite Hs|].
    cbn. lia.
  - destruct (awaiting_auth st) as [|n] eqn:Ha; [lia|].
    destruct (submittingRef st) eqn:Hs; [|lia].
    destruct r; cbn; rewrite ?Ha, ?Hs; cbn; lia.
  - destruct (awaiting_verify st) as [|n] eqn:Ha; [lia|].
    destruct (submittingRef st) eqn:Hs; [|lia].
    unfold resume_verify. destruct (negb (verifyAuthenticatedSession tok));
      cbn; rewrite ?Ha, ?Hs; cbn; lia.
Qed.

(** Sign-up and sign-in requests are only issued by a submission that finds
    the guard flag down. *)
Lemma handleSubmit_guarded (mode : Mode) (st : AuthForm.State) :
  submittingRef st = true -> handleSubmit mode st = (st, []).
Proof. intros H. unfold handleSubmit. now rewrite H. Qed.

(** A submission with valid credentials on a form that is not submitting
    raises the flag and issues the request of the form's mode. *)
Lemma handleSubmit_accepts (mode : Mode) (st : AuthForm.State) :
  submittingRef st = false ->
  validateEmail (email st) = true ->
  validatePassword (password st) = true ->
  handleSubmit mode st =
  ({| email := email st; password := password st; a_error := None;
      loading := true; submittingRef := true;
      awaiting_auth := S (awaiting_auth st);
      awaiting_verify := awaiting_verify st |},
   [match mode with
    | signup => EvSignUpEmail (email st) (password st) (email_prefix (email st))
    | login => EvSignInEmail (email st) (password st)
    end]).
Proof.
  intros Hs He Hp. unfold handleSubmit. rewrite Hs, He, Hp. reflexivity.
Qed.

(** C9. While a submission is in flight the guard flag is set, and a
    further submission returns at once: it issues no request and leaves
    the state of the form as it is.  So of two submissions in a row, made
    with valid credentials on a form that is not submitting, the first
    issues one sign-in or sign-up request and the second none, and exactly
    one call is in flight afterwards. *)
Theorem duplicate_submit_suppressed (mode : Mode) (st : AuthForm.State) (tr : list Event) :
  reachable mode st tr ->
  (0 < in_flight st ->
   submittingRef st = true
   /\ in_flight st = 1
   /\ forall st' evs, step mode st Submit st' evs -> st' = st /\ evs = [])
  /\
  (in_flight st = 0 ->
   validateEmail (email st) = true ->
   validatePassword (password st) = true ->
   let first := handleSubmit mode st in
   let second := handleSubmit mode (fst first) in
   List.length (filter is_auth_request (snd first)) = 1
   /\ snd second = []
   /\ fst second = fst first
   /\ in_flight (fst second) = 1).
Proof.
  intros Hreach. pose proof (guard_tracks_flight mode st tr Hreach) as Hg. split.
  - intros Hpos.
    destruct (submittingRef st) eqn:Hs; [|lia].
    split; [reflexivity | split; [exact Hg|]].
    intros st' evs Hstep. inversion Hstep; subst.
    rewrite (handleSubmit_guarded mode st Hs). split; reflexivity.
  - intros Hidle He Hp.
    destruct (submittingRef st) eqn:Hs; [lia|].
    cbn zeta. rewrite (handleSubmit_accepts mode st Hs He Hp). cbn [fst snd].
    rewrite handleSubmit_guarded by reflexivity.
    cbn [fst snd]. unfold in_flight in *. cbn [awaiting_auth awaiting_verify].
    repeat split; try (destruct mode; reflexivity). lia.
Qed.

Lemma reachable_credentials :
  reachable login Sample.credentials [].
Proof.
  exact (@reach_step login _ _ (TypePassword (lit "correct horse")) _ _
           (@reach_step login _ _ (TypeEmail (lit "ann@example.org")) _ _
              (reach_initial login)
              (step_email login initial _))
           (step_password login _ _)).
Qed.

Lemma reachable_submitting :
  reachable login Sample.submitting [Sample.sign_in].
Proof.
  exact (@reach_step login _ _ Submit _ _ reachable_credentials (step_submit login _)).
Qed.

Lemma duplicate_submit_suppressed_witness :
  (reachable login Sample.submitting [Sample.sign_in]
   /\ 0 < in_flight Sample.submitting
   /\ (forall st' evs, step login Sample.submitting Submit st' evs ->
       st' = Sample.submitting /\ evs = []))
  /\
  (reachable login Sample.credentials []
   /\ in_flight Sample.credentials = 0
   /\ validateEmail (email Sample.credentials) = true
   /\ validatePassword (password Sample.credentials) = true
   /\ snd (handleSubmit login (fst (handleSubmit login Sample.credentials))) = []).
Proof.
  assert (Hpos : 0 < in_flight Sample.submitting) by (unfold in_flight; cbn; lia).
  split.
  - split; [exact reachable_submitting|]. split; [exact Hpos|].
    destruct (duplicate_submit_suppressed login Sample.submitting [Sample.sign_in]
                reachable_submitting) as [Hguard _].
    exact (proj2 (proj2 (Hguard Hpos))).
  - split; [exact reachable_credentials|]. repeat (split; [reflexivity|]).
    destruct (duplicate_submit_suppressed login Sample.credentials []
                reachable_credentials) as [_ Htwice].
    exact (proj1 (proj2 (Htwice eq_refl eq_refl eq_refl))).
Defined.

(* ===================================================================== *)
(** * Further properties of the API client *)
(* ===================================================================== *)

(** X1. A call that rejects, whatever the operation and the reason, leaves
    the cache exactly as it found it. *)
Theorem rejected_call_keeps_cache (c : Call) (cache : Cache) (e : Thrown) :
  outcome (run c cache) = Rejected e ->
  final (run c cache) = cache /\ existsb is_clear (trace (run c cache)) = false.
Proof.
  destruct (run_cases c) as [Hm | (f & n1 & n2 & net & ->)].
  - rewrite (mutation_run c cache Hm).
    destruct (acquired (call_token c)); [|intros _; split; reflexivity].
    destruct (call_store_outcome c); [discriminate|].
    intros _; split; [reflexivity|]. destruct c; reflexivity.
  - rewrite read_run.
    destruct (negb f && isCacheValid n1 cache); [discriminate|].
    destruct (acquired (token_fetch net)); [|intros _; split; reflexivity].
    destruct (store_outcome (store_fetch net)); [discriminate|].
    intros _; split; reflexivity.
Qed.

Lemma rejected_call_keeps_cache_witness :
  outcome (run (CallGetTasks true 0 2000 Sample.list_expired)
             {| tasksCache := Value [Sample.task1]; cacheTimestamp := Some 1000%Z |})
  = Rejected (ApiRequestError (lit "UNAUTHORIZED") (lit "Token has expired") None)
  /\ final (run (CallGetTasks true 0 2000 Sample.list_expired)
              {| tasksCache := Value [Sample.task1]; cacheTimestamp := Some 1000%Z |})
     = {| tasksCache := Value [Sample.task1]; cacheTimestamp := Some 1000%Z |}.
Proof.
  split; [reflexivity|].
  exact (proj1 (rejected_call_keeps_cache
                  (CallGetTasks true 0 2000 Sample.list_expired)
                  {| tasksCache := Value [Sample.task1]; cacheTimestamp := Some 1000%Z |}
                  _ eq_refl)).
Defined.

Lemma call_succeeds_iff (c : Call) :
  call_succeeds c = true <->
  exists bearer, acquired (call_token c) = Some bearer
                 /\ call_store_outcome c = Resolved tt.
Proof.
  split; [apply call_succeeds_outcome|].
  intros (b & Hb & Ho).
  destruct c; cbn [call_succeeds call_token call_store_outcome] in *;
    apply request_succeeds_iff; exists b;
    destruct (store_outcome (store_fetch net)) as [v|]; try discriminate; eauto.
Qed.

(** X2. A mutating operation invalidates the cache exactly when its request
    succeeds: it resolves if and only if a token was acquired and the store
    gave a success status with no body or a body that parses, and the cache
    it leaves is the empty one in that case and the one it found in every
    other, a success status with an unreadable body included. *)
Theorem mutation_invalidates_iff_success (c : Call) (cache : Cache) :
  is_mutation c = true ->
  (outcome (run c cache) = Resolved tt <-> call_succeeds c = true)
  /\ final (run c cache) = if call_succeeds c then empty_cache else cache.
Proof.
  intros Hm. rewrite (mutation_run c cache Hm).
  destruct (acquired (call_token c)) as [b|] eqn:Hb.
  - destruct (call_store_outcome c) as [[]|e] eqn:Ho.
    + assert (Hs : call_succeeds c = true)
        by (apply call_succeeds_iff; exists b; rewrite Hb, Ho; auto).
      rewrite Hs. repeat split; auto.
    + destruct (call_succeeds c) eqn:Hs.
      * apply call_succeeds_iff in Hs. destruct Hs as (? & _ & Hs).
        rewrite Ho in Hs. discriminate.
      * repeat split; discriminate.
  - destruct (call_succeeds c) eqn:Hs.
    + apply call_succeeds_iff in Hs. destruct Hs as (? & Hs & _).
      rewrite Hb in Hs. discriminate.
    + repeat split; discriminate.
Qed.

Lemma mutation_invalidates_iff_success_witness :
  is_mutation (CallDeleteTask 1
                 (Sample.net Sample.token_ok
                    (FetchResolves (Ok 200 (JsonRejects (NativeError (lit "SyntaxError") [])))))) = true
  /\ final (run (CallDeleteTask 1
                   (Sample.net Sample.token_ok
                      (FetchResolves (Ok 200 (JsonRejects (NativeError (lit "SyntaxError") []))))))
              {| tasksCache := Value [Sample.task1]; cacheTimestamp := Some 1000%Z |})
     = {| tasksCache := Value [Sample.task1]; cacheTimestamp := Some 1000%Z |}.
Proof.
  split; [reflexivity|].
  exact (proj2 (mutation_invalidates_iff_success
                  (CallDeleteTask 1
                     (Sample.net Sample.token_ok
                        (FetchResolves (Ok 200 (JsonRejects (NativeError (lit "SyntaxError") []))))))
                  {| tasksCache := Value [Sample.task1]; cacheTimestamp := Some 1000%Z |}
                  eq_refl)).
Defined.

(** X3. The token [getAuthToken] hands over is the [token] property of the
    body of an OK response of the token endpoint, and a truthy one: nothing
    else makes it return a value. *)
Theorem acquired_token_is_body_token (tok : FetchResult TokenResponse) (v : Json) :
  acquired tok = Some v <->
  exists data,
    tok = FetchResolves {| tr_ok := true; tr_json := JsonResolves data |}
    /\ optional_get data (lit "token") = Some v
    /\ truthy_json v = true.
Proof.
  unfold acquired. split.
  - destruct tok as [e | [ok [e | data]]]; try destruct ok; cbn; try discriminate.
    unfold or_null. destruct (optional_get data _) as [w|] eqn:Hg; [|discriminate].
    destruct (truthy_json w) eqn:Ht; [|discriminate].
    intros [= <-]. exists data. auto.
  - intros (data & -> & Hg & Ht). cbn. unfold or_null. now rewrite Hg, Ht.
Qed.

Lemma acquired_token_is_body_token_witness :
  acquired Sample.token_ok = Some (JStr (lit "jwt"))
  /\ exists data,
       Sample.token_ok = FetchResolves {| tr_ok := true; tr_json := JsonResolves data |}
       /\ optional_get data (lit "token") = Some (JStr (lit "jwt"))
       /\ truthy_json (JStr (lit "jwt")) = true.
Proof.
  split; [reflexivity|].
  exact (proj1 (acquired_token_is_body_token Sample.token_ok (JStr (lit "jwt"))) eq_refl).
Defined.

Lemma acquired_truthy (tok : FetchResult TokenResponse) (v : Json) :
  acquired tok = Some v -> truthy_json v = true.
Proof.
  unfold acquired.
  destruct tok as [e | [ok [e | data]]]; try destruct ok; cbn; try discriminate.
  unfold or_null. destruct (optional_get data _) as [w|]; [|discriminate].
  destruct (truthy_json w) eqn:Ht; [|discriminate].
  now intros [= <-].
Qed.

(** Shape of the effects of one call. *)
Lemma run_trace_shape (c : Call) (cache : Cache) :
  trace (run c cache) = []
  \/ trace (run c cache) = [EvFetchToken]
  \/ exists bearer,
       truthy_json bearer = true
       /\ (trace (run c cache) = [EvFetchToken; call_request c bearer]
           \/ trace (run c cache) = [EvFetchToken; call_request c bearer; EvClearCache]).
Proof.
  destruct (run_cases c) as [Hm | (f & n1 & n2 & net & ->)].
  - rewrite (mutation_run c cache Hm).
    destruct (acquired (call_token c)) as [b|] eqn:Hb; [|auto].
    right; right. exists b. split; [exact (acquired_truthy _ _ Hb)|].
    destruct (call_store_outcome c); auto.
  - rewrite read_run.
    destruct (negb f && isCacheValid n1 cache); [auto|].
    destruct (acquired (token_fetch net)) as [b|] eqn:Hb; [|auto].
    right; right. exists b. split; [exact (acquired_truthy _ _ Hb)|].
    destruct (store_outcome (store_fetch net)); auto.
Qed.

Lemma run_all_cons (c : Call) (rest : list Call) (cache : Cache) :
  run_all (c :: rest) cache =
  (fst (run_all rest (final (run c cache))),
   trace (run c cache) ++ snd (run_all rest (final (run c cache)))).
Proof.
  cbn [run_all]. destruct (run c cache) as [[r cache1] tr1].
  cbn [final trace fst snd]. now destruct (run_all rest cache1).
Qed.

(** X4. Over any sequence of calls, every request to the store carries a
    truthy bearer token, and there are no more requests to the store than
    requests to the token endpoint, and no more of these than calls: a
    token is asked for afresh for every request, and never reused. *)
Theorem store_requests_carry_token (calls : list Call) (cache : Cache) :
  forallb bearer_truthy (snd (run_all calls cache)) = true
  /\ store_calls (snd (run_all calls cache)) <= token_calls (snd (run_all calls cache))
  /\ token_calls (snd (run_all calls cache)) <= List.length calls.
Proof.
  revert cache. induction calls as [|c rest IH]; intros cache.
  - cbn. repeat split; lia.
  - rewrite run_all_cons. cbn [snd List.length].
    destruct (IH (final (run c cache))) as (Hb & Hs & Ht).
    unfold store_calls, token_calls in *.
    rewrite forallb_app, !filter_app, !length_app, Hb.
    generalize dependent (snd (run_all rest (final (run c cache)))).
    intros tr Hb Hs Ht.
    destruct (run_trace_shape c cache)
      as [-> | [-> | (b & Hb' & [-> | ->])]];
      destruct c; cbn; rewrite ?Hb'; cbn; repeat split; lia.
Qed.

(** X5. Once a list is cached under a non-zero timestamp, any number of
    unforced reads whose clocks are within the TTL of that timestamp cost
    nothing: no request is sent and the cache stays as it is. *)
Theorem reads_within_ttl_are_free (l : list Task) (ts : Z) (reads : list Call) :
  ts <> 0%Z ->
  forallb (fresh_read ts) reads = true ->
  run_all reads {| tasksCache := Value l; cacheTimestamp := Some ts |}
  = ({| tasksCache := Value l; cacheTimestamp := Some ts |}, []).
Proof.
  intros Hts. induction reads as [|c rest IH]; [reflexivity|].
  cbn [forallb]. intros H. apply andb_true_iff in H. destruct H as [Hc Hrest].
  rewrite run_all_cons.
  destruct c as [f n1 n2 net | | | | |]; try discriminate.
  cbn [fresh_read] in Hc. apply andb_true_iff in Hc. destruct Hc as [Hf Hage].
  apply Z.ltb_lt in Hage.
  rewrite read_run, Hf, (isCacheValid_fresh n1 l ts Hts Hage).
  cbn [andb final trace fst snd app]. rewrite (IH Hrest). reflexivity.
Qed.

Lemma reads_within_ttl_are_free_witness :
  (1000 <> 0)%Z
  /\ forallb (fresh_read 1000)
       [CallGetTasks false 1500 1600 Sample.list_no_session;
        CallGetTasks false 30999 31000 Sample.list_expired] = true
  /\ snd (run_all [CallGetTasks false 1500 1600 Sample.list_no_session;
                   CallGetTasks false 30999 31000 Sample.list_expired]
            {| tasksCache := Value [Sample.task1]; cacheTimestamp := Some 1000%Z |}) = [].
Proof.
  assert (Hts : (1000 <> 0)%Z) by lia.
  split; [exact Hts|]. split; [reflexivity|].
  rewrite (reads_within_ttl_are_free [Sample.task1] 1000
             [CallGetTasks false 1500 1600 Sample.list_no_session;
              CallGetTasks false 30999 31000 Sample.list_expired] Hts eq_refl).
  reflexivity.
Defined.

Lemma store_outcome_value {T} (r : FetchResult (Response T)) (v : T) :
  store_outcome r = Resolved (Value v) ->
  exists status, r = FetchResolves (Ok status (JsonResolves v)) /\ status <> 204%Z.
Proof.
  unfold store_outcome.
  destruct r as [e | [b | status [e | w] | data engine | status data]];
    try discriminate;
    destruct (Z.eqb_spec status 204); try discriminate;
    try (destruct data; discriminate).
  intros [= ->]. eauto.
Qed.

Lemma fetched_by_cons (c : Call) (calls : list Call) (l : list Task) (ts : Z) :
  fetched_by calls l ts -> fetched_by (c :: calls) l ts.
Proof.
  intros (f & n & net & status & Hin & H). exists f, n, net, status.
  split; [now right | exact H].
Qed.

Lemma run_all_cache_origin (calls : list Call) (cache : Cache) (l : list Task) (ts : Z) :
  tasksCache (fst (run_all calls cache)) = Value l ->
  cacheTimestamp (fst (run_all calls cache)) = Some ts ->
  (tasksCache cache = Value l /\ cacheTimestamp cache = Some ts)
  \/ fetched_by calls l ts.
Proof.
  revert cache. induction calls as [|c rest IH]; intros cache; [cbn; auto|].
  rewrite run_all_cons. cbn [fst]. intros Hl Hts.
  destruct (IH _ Hl Hts) as [[Hl' Hts'] | Hrest]; [|right; now apply fetched_by_cons].
  clear IH Hl Hts.
  destruct (run_cases c) as [Hm | (f & n1 & n2 & net & ->)].
  - rewrite (mutation_run c cache Hm) in Hl', Hts'.
    destruct (acquired (call_token c)); [|now left].
    destruct (call_store_outcome c); [discriminate | now left].
  - rewrite read_run in Hl', Hts'.
    destruct (negb f && isCacheValid n1 cache); [now left|].
    destruct (acquired (token_fetch net)); [|now left].
    destruct (store_outcome (store_fetch net)) as [tasks | e] eqn:Ho; [|now left].
    cbn in Hl', Hts'. subst tasks. injection Hts' as ->.
    destruct (store_outcome_value _ _ Ho) as (status & Hr & Hst).
    right. exists f, n1, net, status. split; [now left | auto].
Qed.

(** X6. Whatever calls are made from the moment the module is loaded, a
    list found in the cache is the body of the response to one of the
    list requests, stamped with the clock that read took: no mutation ever
    writes its result into the cache. *)
Theorem cached_list_was_fetched (calls : list Call) (l : list Task) (ts : Z) :
  tasksCache (fst (run_all calls empty_cache)) = Value l ->
  cacheTimestamp (fst (run_all calls empty_cache)) = Some ts ->
  fetched_by calls l ts.
Proof.
  intros Hl Hts.
  destruct (run_all_cache_origin calls empty_cache l ts Hl Hts) as [[H _] | H];
    [discriminate | exact H].
Qed.

Lemma cached_list_was_fetched_witness :
  tasksCache (fst (run_all [CallCreateTask Sample.create_data Sample.task_ok;
                            CallGetTasks false 5 1000 Sample.list_ok]
                     empty_cache)) = Value [Sample.task1]
  /\ cacheTimestamp (fst (run_all [CallCreateTask Sample.create_data Sample.task_ok;
                                   CallGetTasks false 5 1000 Sample.list_ok]
                            empty_cache)) = Some 1000%Z
  /\ fetched_by [CallCreateTask Sample.create_data Sample.task_ok;
                 CallGetTasks false 5 1000 Sample.list_ok] [Sample.task1] 1000.
Proof.
  split; [reflexivity|]. split; [reflexivity|].
  exact (cached_list_was_fetched
           [CallCreateTask Sample.create_data Sample.task_ok;
            CallGetTasks false 5 1000 Sample.list_ok] [Sample.task1] 1000
           eq_refl eq_refl).
Defined.

(** X7. The check the login form makes before it redirects,
    [verifyAuthenticatedSession], accepts an answer of the token endpoint
    exactly when [getAuthToken] would draw a token from it. *)
Theorem verify_agrees_with_getAuthToken (tok : FetchResult TokenResponse) :
  AuthForm.verifyAuthenticatedSession tok = true <-> acquired tok <> None.
Proof.
  unfold AuthForm.verifyAuthenticatedSession, acquired.
  destruct tok as [e | [ok [e | data]]]; try destruct ok; cbn;
    try (split; [discriminate | intros H; now contradiction H]).
  unfold or_null. destruct (optional_get data _) as [v|];
    [|split; [discriminate | intros H; now contradiction H]].
  destruct (truthy_json v); split; intros H; try reflexivity; try discriminate.
  now contradiction H.
Qed.

Lemma verify_agrees_with_getAuthToken_witness :
  acquired Sample.token_ok <> None
  /\ AuthForm.verifyAuthenticatedSession Sample.token_ok = true.
Proof.
  assert (H : acquired Sample.token_ok <> None) by discriminate.
  split; [exact H|].
  exact (proj2 (verify_agrees_with_getAuthToken Sample.token_ok) H).
Defined.

(* ===================================================================== *)
(** * Further properties of the login / signup form *)
(* ===================================================================== *)

Lemma eqb_refl (s : jsstring) : Js.eqb s s = true.
Proof. unfold Js.eqb. now destruct (list_eq_dec N.eq_dec s s). Qed.

(** X8. In every state the form can reach, the [loading] state that
    disables the fields and the button has the value of the guard flag. *)
Theorem loading_tracks_guard (mode : Mode) (st : AuthForm.State) (tr : list Event) :
  reachable mode st tr -> loading st = submittingRef st.
Proof.
  induction 1 as [| st tr i st' evs Hreach IH Hstep]; [reflexivity|].
  destruct Hstep as [st v | st v | st | st r Hpos | st tok Hpos];
    cbn [loading submittingRef]; try exact IH.
  - unfold handleSubmit.
    destruct (submittingRef st) eqn:Hs; [cbn; now rewrite Hs|].
    destruct (negb (validateEmail (email st))); [cbn; now rewrite Hs|].
    destruct (negb (validatePassword (password st)));
      [cbn; now rewrite Hs | reflexivity].
  - destruct r; cbn; try reflexivity; exact IH.
  - unfold resume_verify.
    destruct (negb (verifyAuthenticatedSession tok)); reflexivity.
Qed.

Lemma loading_tracks_guard_witness :
  reachable login Sample.submitting [Sample.sign_in]
  /\ loading Sample.submitting = submittingRef Sample.submitting.
Proof.
  split; [exact reachable_submitting|].
  exact (loading_tracks_guard login Sample.submitting [Sample.sign_in]
           reachable_submitting).
Defined.

Lemma step_events (mode : Mode) (st st' : AuthForm.State) (i : Input) (evs : list Event) :
  step mode st i st' evs ->
  (evs = []
   /\ awaiting_auth st' <= awaiting_auth st
   /\ awaiting_verify st' <= awaiting_verify st)
  \/ (exists e, evs = [e] /\ is_auth_request e = true /\ valid_request mode e = true
                /\ awaiting_auth st' = S (awaiting_auth st)
                /\ awaiting_verify st' = awaiting_verify st)
  \/ (evs = [EvFetchToken]
      /\ S (awaiting_auth st') = awaiting_auth st
      /\ awaiting_verify st' = S (awaiting_verify st))
  \/ (evs = [EvPush (lit "/dashboard")]
      /\ awaiting_auth st' = awaiting_auth st
      /\ S (awaiting_verify st') = awaiting_verify st).
Proof.
  intros Hstep.
  destruct Hstep as [st v | st v | st | st r Hpos | st tok Hpos];
    try (left; cbn; repeat split; lia).
  - unfold handleSubmit.
    destruct (submittingRef st); [left; cbn; repeat split; lia|].
    destruct (validateEmail (email st)) eqn:He; cbn [negb];
      [|left; cbn; repeat split; lia].
    destruct (validatePassword (password st)) eqn:Hp; cbn [negb];
      [|left; cbn; repeat split; lia].
    right; left. eexists. split; [reflexivity|].
    destruct mode; cbn; rewrite He, Hp, ?eqb_refl; auto.
  - destruct (awaiting_auth st) as [|n] eqn:Ha; [lia|].
    destruct r; cbn; rewrite ?Ha; cbn;
      try (left; repeat split; lia).
    right; right; left. repeat split.
  - destruct (awaiting_verify st) as [|n] eqn:Ha; [lia|].
    unfold resume_verify.
    destruct (negb (verifyAuthenticatedSession tok)); cbn; rewrite ?Ha; cbn.
    + left; repeat split; lia.
    + right; right; right. repeat split.
Qed.

(** X9. Every request the form sends to the session provider is of the
    kind of its mode and carries an email and a password that passed the
    form's validation; a sign-up names the user after the part of the email
    before the ["@"]. *)
Theorem requests_carry_valid_credentials (mode : Mode) (st : AuthForm.State)
    (tr : list Event) :
  reachable mode st tr -> forallb (valid_request mode) tr = true.
Proof.
  induction 1 as [| st tr i st' evs Hreach IH Hstep]; [reflexivity|].
  rewrite forallb_app, IH.
  destruct (step_events mode st st' i evs Hstep)
    as [(-> & _) | [(e & -> & _ & Hv & _) | [(-> & _) | (-> & _)]]];
    cbn; rewrite ?Hv; destruct mode; reflexivity.
Qed.

Lemma requests_carry_valid_credentials_witness :
  reachable login Sample.submitting [Sample.sign_in]
  /\ forallb (valid_request login) [Sample.sign_in] = true.
Proof.
  split; [exact reachable_submitting|].
  exact (requests_carry_valid_credentials login Sample.submitting [Sample.sign_in]
           reachable_submitting).
Defined.

(** X10. The form navigates nowhere but to the dashboard, and only as the
    outcome of a session check that followed a request to the session
    provider: at any time the redirects and the pending checks together do
    not outnumber the checks started, nor these and the pending requests
    the requests sent. *)
Theorem redirect_only_after_verification (mode : Mode) (st : AuthForm.State)
    (tr : list Event) :
  reachable mode st tr ->
  count_events is_push tr = count_events is_push_dashboard tr
  /\ count_events is_push tr + awaiting_verify st
     <= count_events is_token_fetch tr
  /\ count_events is_token_fetch tr + awaiting_auth st
     <= count_events is_auth_request tr.
Proof.
  unfold count_events.
  induction 1 as [| st tr i st' evs Hreach IH Hstep]; [cbn; repeat split; lia|].
  rewrite !filter_app, !length_app.
  destruct IH as (IH1 & IH2 & IH3).
  destruct (step_events mode st st' i evs Hstep)
    as [(-> & Ha & Hv) | [(e & -> & He & _ & Ha & Hv)
                          | [(-> & Ha & Hv) | (-> & Ha & Hv)]]].
  - cbn. repeat split; lia.
  - destruct e; try discriminate; cbn; repeat split; lia.
  - cbn. repeat split; lia.
  - cbn. rewrite eqb_refl. cbn. repeat split; lia.
Qed.

Lemma redirect_only_after_verification_witness :
  reachable login Sample.submitting [Sample.sign_in]
  /\ count_events is_push [Sample.sign_in] + awaiting_verify Sample.submitting
     <= count_events is_token_fetch [Sample.sign_in].
Proof.
  split; [exact reachable_submitting|].
  exact (proj1 (proj2 (redirect_only_after_verification login Sample.submitting
                         [Sample.sign_in] reachable_submitting))).
Defined.

(** X11. However a submission fails (the auth call throws or reports an
    error, or the session check after it fails), the form ends up usable
    again: guard flag down, [loading] off, nothing in flight, a non-empty
    error shown, the typed credentials kept, and no navigation.  In login
    mode a thrown call and a reported error show the same message. *)
Theorem failed_submission_reenables_form (mode : Mode) (st : AuthForm.State)
    (tr : list Event) (f : Failure) :
  reachable mode st tr ->
  match f with
  | FailAuth _ => 0 < awaiting_auth st
  | FailVerify _ => 0 < awaiting_verify st
  end ->
  is_failure f = true ->
  let st' := fst (settle_failure mode f st) in
  snd (settle_failure mode f st) = []
  /\ submittingRef st' = false /\ loading st' = false /\ in_flight st' = 0
  /\ (exists m, a_error st' = Some m /\ truthy m = true)
  /\ email st' = email st /\ password st' = password st
  /\ (forall r, f = FailAuth r -> mode = login ->
      a_error st' = Some (lit "Invalid email or password")).
Proof.
  intros Hreach Hpos Hfail. cbn zeta.
  pose proof (guard_tracks_flight mode st tr Hreach) as Hg.
  unfold in_flight in *.
  assert (Hone : awaiting_auth st + awaiting_verify st = 1)
    by (destruct (submittingRef st), f; lia).
  destruct f as [r | tok]; cbn [settle_failure is_failure] in *.
  - destruct (awaiting_auth st) as [|n] eqn:Ha; [lia|].
    destruct r; try discriminate; cbn; rewrite Ha; cbn;
      (repeat split; try lia;
       [destruct mode; eexists; split; reflexivity
       | intros r' _ ->; reflexivity]).
  - destruct (awaiting_verify st) as [|n] eqn:Ha; [lia|].
    unfold resume_verify. rewrite Hfail. cbn. rewrite Ha. cbn.
    repeat split; try lia.
    + destruct mode; eexists; split; reflexivity.
    + intros r' [=].
Qed.

Lemma failed_submission_reenables_form_witness :
  reachable login Sample.submitting [Sample.sign_in]
  /\ 0 < awaiting_auth Sample.submitting
  /\ is_failure (FailAuth AuthThrows) = true
  /\ a_error (fst (settle_failure login (FailAuth AuthThrows) Sample.submitting))
     = Some (lit "Invalid email or password").
Proof.
  assert (Hpos : 0 < awaiting_auth Sample.submitting) by (cbn; lia).
  split; [exact reachable_submitting|]. split; [exact Hpos|]. split; [reflexivity|].
  exact (proj2 (proj2 (proj2 (proj2 (proj2 (proj2 (proj2
           (failed_submission_reenables_form login Sample.submitting
              [Sample.sign_in] (FailAuth AuthThrows)
              reachable_submitting Hpos eq_refl)))))))
           AuthThrows eq_refl eq_refl).
Defined.

Lemma split_at_spec (e l d : jsstring) :
  split_at e = Some (l, d) ->
  e = l ++ at_sign :: d
  /\ forallb (fun c => negb (c =? at_sign)%N) l = true.
Proof.
  revert l. induction e as [|c e IH]; intros l; cbn; [discriminate|].
  destruct (N.eqb_spec c at_sign) as [-> | Hne].
  - intros [= <- <-]. split; reflexivity.
  - destruct (split_at e) as [[l' d']|]; [|discriminate].
    intros [= <- <-]. destruct (IH l' eq_refl) as [-> Hl]. cbn.
    split; [reflexivity|]. rewrite Hl.
    destruct (N.eqb_spec c at_sign); [contradiction | reflexivity].
Qed.

(** X12. An email accepted by [validateEmail] consists of a non-empty part
    before the ["@"], which is the name a sign-up sends, and a part after
    it of at least three code units; neither contains white space or
    another ["@"]. *)
Theorem valid_email_shape (e : jsstring) :
  validateEmail e = true ->
  exists l d,
    e = l ++ at_sign :: d
    /\ email_prefix e = l
    /\ truthy l = true
    /\ forallb plain l = true
    /\ forallb plain d = true
    /\ 3 <= List.length d.
Proof.
  unfold validateEmail, email_prefix.
  destruct (split_at e) as [[l d]|] eqn:Hs; [|discriminate].
  intros H. apply andb_true_iff in H. destruct H as [H Hd].
  apply andb_true_iff in H. destruct H as [Hl Hp].
  destruct (split_at_spec e l d Hs) as [-> _].
  exists l, d. repeat split; try assumption.
  - unfold dotted in Hd. apply andb_true_iff in Hd. tauto.
  - unfold dotted in Hd. apply andb_true_iff in Hd. destruct Hd as [_ Hd].
    destruct d as [|c1 [|c2 [|c3 d]]]; cbn in *; try discriminate; lia.
Qed.

Lemma valid_email_shape_witness :
  validateEmail (lit "ann@example.org") = true
  /\ exists l d,
       lit "ann@example.org" = l ++ at_sign :: d
       /\ email_prefix (lit "ann@example.org") = l
       /\ truthy l = true
       /\ forallb plain l = true
       /\ forallb plain d = true
       /\ 3 <= List.length d.
Proof.
  split; [reflexivity|].
  exact (valid_email_shape (lit "ann@example.org") eq_refl).
Defined.

(* ===================================================================== *)
(** * Trimming *)
(* ===================================================================== *)

Lemma trimStart_no_leading_space (s : jsstring) :
  no_leading_space (trimStart s) = true.
Proof.
  induction s as [|c s IH]; [reflexivity|]. cbn.
  destruct (is_whitespace c) eqn:Hc; [exact IH|]. cbn. now rewrite Hc.
Qed.

Lemma trimStart_fixed (s : jsstring) :
  no_leading_space s = true -> trimStart s = s.
Proof.
  destruct s as [|c s]; [reflexivity|]. cbn.
  destruct (is_whitespace c); [discriminate | reflexivity].
Qed.

Lemma trimStart_blank (s : jsstring) :
  forallb is_whitespace s = true -> trimStart s = [].
Proof.
  induction s as [|c s IH]; [reflexivity|]. cbn.
  destruct (is_whitespace c); [exact IH | discriminate].
Qed.

(** [trimStart] drops a prefix. *)
Lemma trimStart_suffix (s : jsstring) :
  exists p, s = p ++ trimStart s.
Proof.
  induction s as [|c s [p IH]]; [now exists []|]. cbn.
  destruct (is_whitespace c); [|now exists []].
  exists (c :: p). cbn. now rewrite <- IH.
Qed.

(** [trim] drops a suffix of what [trimStart] leaves. *)
Lemma trim_prefix (s : jsstring) :
  exists q, trimStart s = trim s ++ q.
Proof.
  unfold trim, trimEnd.
  destruct (trimStart_suffix (rev (trimStart s))) as [p Hp].
  exists (rev p).
  rewrite <- rev_app_distr, <- Hp. now rewrite rev_involutive.
Qed.

Lemma trim_trimmed (s : jsstring) : trimmed (trim s) = true.
Proof.
  unfold trimmed. apply andb_true_iff. split.
  - destruct (trim_prefix s) as [q Hq].
    pose proof (trimStart_no_leading_space s) as H. rewrite Hq in H.
    destruct (trim s); [reflexivity | exact H].
  - unfold trim, trimEnd. rewrite rev_involutive.
    apply trimStart_no_leading_space.
Qed.

Lemma trimmed_trim (s : jsstring) : trimmed s = true -> trim s = s.
Proof.
  unfold trimmed. intros H. apply andb_true_iff in H. destruct H as [H1 H2].
  unfold trim, trimEnd. rewrite (trimStart_fixed s H1), (trimStart_fixed _ H2).
  apply rev_involutive.
Qed.

Lemma trim_blank (s : jsstring) :
  forallb is_whitespace s = true -> trim s = [].
Proof.
  intros H. unfold trim, trimEnd. now rewrite (trimStart_blank s H).
Qed.

(* ===================================================================== *)
(** * Further properties of the task form *)
(* ===================================================================== *)

(** X13. A title made of white space only, the empty title included, is
    refused as missing. *)
Theorem blank_title_is_required (value : jsstring) :
  forallb is_whitespace value = true ->
  TaskForm.validateTitle value = Some (lit "Title is required").
Proof.
  intros H. unfold TaskForm.validateTitle. now rewrite (trim_blank value H).
Qed.

Lemma blank_title_is_required_witness :
  forallb is_whitespace (lit "   ") = true
  /\ TaskForm.validateTitle (lit "   ") = Some (lit "Title is required").
Proof.
  split; [reflexivity|].
  exact (blank_title_is_required (lit "   ") eq_refl).
Defined.

(** X14. Validation looks at the trimmed title only: white space around a
    title changes neither whether it is accepted nor the message. *)
Theorem validateTitle_ignores_surrounding_space (value : jsstring) :
  TaskForm.validateTitle (trim value) = TaskForm.validateTitle value.
Proof.
  unfold TaskForm.validateTitle.
  now rewrite (trimmed_trim (trim value) (trim_trimmed value)).
Qed.

Lemma trimmed_length_cases (value : jsstring) :
  (List.length (trim value) = 0 \/ 200 < List.length (trim value))
  \/ 1 <= List.length (trim value) <= 200.
Proof. lia. Qed.

(** X15. Whatever is typed into the form, a submission hands at most one
    task to [onSubmit], and a task it hands over meets the constraints of
    the data model: a title of 1 to 200 code units and a description that
    is [null] or non-empty, both without surrounding white space. *)
Theorem submitted_task_is_valid (log : list TaskCreate) (f : TaskForm.State) :
  let log' := fst (final (TaskForm.handleSubmit record_submit (log, f))) in
  log' = log \/ exists d, log' = log ++ [d] /\ valid_create d.
Proof.
  cbn zeta.
  destruct (validateTitle_cases (TaskForm.f_title f)) as (H0 & Hbig & Hok).
  cbn zeta in *.
  pose proof (trimmed_length_cases (TaskForm.f_title f)) as Hcase.
  destruct Hcase as [Hbad | Hgood].
  - left.
    assert (Hv : exists msg, TaskForm.validateTitle (TaskForm.f_title f) = Some msg
                             /\ truthy msg = true).
    { destruct Hbad as [H | H]; [rewrite (H0 H) | rewrite (Hbig H)];
        eexists; split; reflexivity. }
    destruct Hv as (msg & Hv & Ht).
    unfold TaskForm.handleSubmit, bind, get, on_snd, TaskForm.setError, modify.
    cbn [snd fst]. rewrite Hv. cbn [TaskForm.truthy_or_null]. rewrite Ht.
    reflexivity.
  - right. eexists. split.
    + unfold TaskForm.handleSubmit, bind, get, try_catch, on_fst, on_snd,
        TaskForm.setError, TaskForm.setTitle, TaskForm.setDescription, modify,
        record_submit.
      cbn [snd fst]. rewrite (Hok Hgood). cbn. reflexivity.
    + unfold valid_create. cbn [tc_title tc_description].
      split; [exact Hgood|]. split; [apply trim_trimmed|].
      unfold TaskForm.string_or_null.
      destruct (truthy (trim (TaskForm.f_description f))) eqn:Ht; [|exact I].
      split; [exact Ht | apply trim_trimmed].
Qed.

(** X16. The form catches whatever [onSubmit] throws: a submission never
    rejects, whatever is typed and whatever the parent does. *)
Theorem handleSubmit_never_rejects (S : Type) (onSubmit : TaskCreate -> M S unit)
    (s : S) (f : TaskForm.State) :
  outcome (TaskForm.handleSubmit onSubmit (s, f)) = Resolved tt.
Proof.
  unfold TaskForm.handleSubmit, bind, get, try_catch, on_fst, on_snd,
    TaskForm.setError, TaskForm.setTitle, TaskForm.setDescription, modify.
  cbn [snd fst].
  destruct (TaskForm.truthy_or_null (TaskForm.validateTitle (TaskForm.f_title f)));
    [reflexivity|].
  destruct (onSubmit _ s) as [[[u | e] s'] tr]; [reflexivity|].
  cbn. destruct (instanceof_Error e); reflexivity.
Qed.

(* ===================================================================== *)
(** * Task item *)
(* ===================================================================== *)

(** X17. Saving an edit applies the validation of task creation: a title
    that [validateTitle] refuses is refused with the same message and
    [onUpdate] is not called.  A title it accepts is sent trimmed, with the
    trimmed description or [null] and without [is_completed]; the item
    leaves edit mode if [onUpdate] resolves and shows the error if it
    rejects, and in both cases it stops loading and the handler resolves. *)
Theorem edit_validation_matches_creation (S : Type) (task : Task)
    (onUpdate : Z -> TaskUpdate -> M S unit) (s : S) (st : TaskItem.State) :
  match TaskForm.validateTitle (TaskItem.editTitle st) with
  | Some msg =>
      TaskItem.handleSaveEdit task onUpdate (s, st)
      = (Resolved tt,
         (s, {| TaskItem.isEditing := TaskItem.isEditing st;
                TaskItem.editTitle := TaskItem.editTitle st;
                TaskItem.editDescription := TaskItem.editDescription st;
                TaskItem.isLoading := TaskItem.isLoading st;
                TaskItem.i_error := Some msg |}),
         [])
  | None =>
      TaskItem.handleSaveEdit task onUpdate (s, st)
      = match onUpdate (id task)
                {| tu_title := Some (trim (TaskItem.editTitle st));
                   tu_description :=
                     Some (TaskForm.string_or_null (trim (TaskItem.editDescription st)));
                   tu_is_completed := None |} s with
        | (Resolved _, s', tr) =>
            (Resolved tt,
             (s', {| TaskItem.isEditing := false;
                     TaskItem.editTitle := TaskItem.editTitle st;
                     TaskItem.editDescription := TaskItem.editDescription st;
                     TaskItem.isLoading := false;
                     TaskItem.i_error := None |}),
             tr)
        | (Rejected e, s', tr) =>
            (Resolved tt,
             (s', {| TaskItem.isEditing := TaskItem.isEditing st;
                     TaskItem.editTitle := TaskItem.editTitle st;
                     TaskItem.editDescription := TaskItem.editDescription st;
                     TaskItem.isLoading := false;
                     TaskItem.i_error :=
                       Some (if instanceof_Error e then error_message e
                             else lit "Failed to update task") |}),
             tr)
        end
  end.
Proof.
  unfold TaskForm.validateTitle, TaskItem.handleSaveEdit, bind, get, finally,
    try_catch, on_fst, on_snd, TaskItem.show_error, TaskItem.setError,
    TaskItem.setIsLoading, TaskItem.setIsEditing, modify.
  cbn [snd fst].
  destruct (negb (truthy (trim (TaskItem.editTitle st)))); [reflexivity|].
  destruct (200 <? Z.of_nat (List.length (trim (TaskItem.editTitle st))))%Z;
    [reflexivity|].
  destruct (onUpdate _ _ s) as [[[u | e] s'] tr]; cbn.
  - now rewrite !app_nil_r.
  - destruct (instanceof_Error e); cbn; now rewrite !app_nil_r.
Qed.

(** X18. Deleting an item never rejects.  Unless the user confirms,
    [onDelete] is not called and nothing changes.  After a confirmed
    delete the item keeps [isLoading] set when [onDelete] resolved (the
    parent is to remove it), and clears it and shows the error when
    [onDelete] rejected. *)
Theorem delete_needs_confirmation (S : Type) (task : Task) (confirmed : bool)
    (onDelete : Z -> M S unit) (s : S) (st : TaskItem.State) :
  TaskItem.handleDelete task confirmed onDelete (s, st)
  = if confirmed then
      match onDelete (id task) s with
      | (Resolved _, s', tr) =>
          (Resolved tt,
           (s', {| TaskItem.isEditing := TaskItem.isEditing st;
                   TaskItem.editTitle := TaskItem.editTitle st;
                   TaskItem.editDescription := TaskItem.editDescription st;
                   TaskItem.isLoading := true;
                   TaskItem.i_error := None |}),
           tr)
      | (Rejected e, s', tr) =>
          (Resolved tt,
           (s', {| TaskItem.isEditing := TaskItem.isEditing st;
                   TaskItem.editTitle := TaskItem.editTitle st;
                   TaskItem.editDescription := TaskItem.editDescription st;
                   TaskItem.isLoading := false;
                   TaskItem.i_error :=
                     Some (if instanceof_Error e then error_message e
                           else lit "Failed to delete task") |}),
           tr)
      end
    else (Resolved tt, (s, st), []).
Proof.
  destruct confirmed; [|reflexivity].
  unfold TaskItem.handleDelete, bind, try_catch, on_fst, on_snd,
    TaskItem.show_error, TaskItem.setError, TaskItem.setIsLoading, modify.
  cbn [negb snd fst].
  destruct (onDelete _ s) as [[[[] | e] s'] tr]; cbn; [reflexivity|].
  destruct (instanceof_Error e); cbn; now rewrite !app_nil_r.
Qed.

(** X19. Cancelling an edit discards it: whatever was typed and whatever
    error was shown, an item that is not loading is back in the state it
    was created in for its task. *)
Theorem cancel_restores_item (task : Task) (st : TaskItem.State) :
  TaskItem.isLoading st = false ->
  TaskItem.handleCancelEdit task st = (Resolved tt, TaskItem.initial task, []).
Proof.
  intros H. unfold TaskItem.handleCancelEdit, bind, TaskItem.setEditTitle,
    TaskItem.setEditDescription, TaskItem.setError, TaskItem.setIsEditing,
    modify, TaskItem.initial.
  cbn. now rewrite H.
Qed.

Lemma cancel_restores_item_witness :
  TaskItem.isLoading
    {| TaskItem.isEditing := true; TaskItem.editTitle := lit "Buy";
       TaskItem.editDescription := lit "soon"; TaskItem.isLoading := false;
       TaskItem.i_error := Some (lit "Title is required") |} = false
  /\ final (TaskItem.handleCancelEdit Sample.task1
              {| TaskItem.isEditing := true; TaskItem.editTitle := lit "Buy";
                 TaskItem.editDescription := lit "soon"; TaskItem.isLoading := false;
                 TaskItem.i_error := Some (lit "Title is required") |})
     = TaskItem.initial Sample.task1.
Proof.
  split; [reflexivity|].
  rewrite (cancel_restores_item Sample.task1
             {| TaskItem.isEditing := true; TaskItem.editTitle := lit "Buy";
                TaskItem.editDescription := lit "soon"; TaskItem.isLoading := false;
                TaskItem.i_error := Some (lit "Title is required") |} eq_refl).
  reflexivity.
Defined.

(* ===================================================================== *)
(** * Dashboard controller: list fetch, continued *)
(* ===================================================================== *)

Lemma getTasks_never_pushes f now_check now_store net cache :
  existsb is_push (trace (getTasks f now_check now_store net cache)) = false.
Proof.
  rewrite getTasks_run.
  destruct (negb f && isCacheValid now_check cache); [reflexivity|].
  destruct (acquired (token_fetch net)); [|reflexivity].
  destruct (store_outcome (store_fetch net)); reflexivity.
Qed.

(** X20. [fetchTasks] never rejects and always ends with [isLoading]
    cleared.  When the list request resolves, the task list is replaced by
    what was fetched and the error is cleared; when it rejects, the task
    list shown stays the one from before. *)
Theorem fetchTasks_settles (now : Z) (net : Net (list Task)) (cache : Cache)
    (d : DashboardPage.State) :
  let r := fetchTasks now net (cache, d) in
  let api := getTasks true now now net cache in
  outcome r = Resolved tt
  /\ fst (final r) = final api
  /\ d_isLoading (snd (final r)) = false
  /\ d_isCreating (snd (final r)) = d_isCreating d
  /\ match outcome api with
     | Resolved fetched =>
         d_tasks (snd (final r)) = fetched
         /\ d_error (snd (final r)) = None
         /\ trace r = trace api
     | Rejected _ => d_tasks (snd (final r)) = d_tasks d
     end.
Proof.
  cbn zeta. rewrite fetchTasks_run.
  destruct (getTasks true now now net cache) as [[[fetched | err] cache'] tr].
  - repeat split.
  - destruct (instanceof_Error err); [|repeat split].
    destruct (includes _ _ || includes _ _); repeat split.
Qed.

(** X21. [fetchTasks] navigates, and then to the login view, exactly when
    the list request rejects with an [Error] whose message contains
    ["UNAUTHORIZED"] or ["Not authenticated"]; it then shows no banner.
    Any other rejection is shown in the banner: the message of an [Error],
    or a fixed text for a thrown value that is no [Error]. *)
Theorem fetchTasks_redirect_criterion (now : Z) (net : Net (list Task))
    (cache : Cache) (d : DashboardPage.State) (err : Thrown) :
  outcome (getTasks true now now net cache) = Rejected err ->
  let r := fetchTasks now net (cache, d) in
  let auth :=
    instanceof_Error err
    && (includes (error_message err) (lit "UNAUTHORIZED")
        || includes (error_message err) (lit "Not authenticated")) in
  existsb is_push (trace r) = auth
  /\ existsb is_push_login (trace r) = auth
  /\ d_error (snd (final r))
     = if auth then None
       else Some (if instanceof_Error err then error_message err
                  else lit "Failed to load tasks").
Proof.
  cbn zeta. rewrite fetchTasks_run.
  pose proof (getTasks_never_pushes true now now net cache) as Hnp.
  destruct (getTasks true now now net cache) as [[[fetched | e] cache'] tr];
    cbn [outcome fst]; [discriminate|]. intros [= ->].
  cbn [trace snd] in Hnp.
  assert (Hnl : existsb is_push_login tr = false).
  { clear -Hnp. induction tr as [|x tr IH]; [reflexivity|].
    cbn in *. apply orb_false_iff in Hnp. destruct Hnp as [Hx Ht].
    rewrite (IH Ht). destruct x; try discriminate; reflexivity. }
  destruct (instanceof_Error err); cbn [andb].
  - destruct (includes _ _ || includes _ _); cbn [trace final snd fst d_error].
    + rewrite !existsb_app, Hnp, Hnl. repeat split.
    + rewrite Hnp, Hnl. repeat split.
  - cbn [trace final snd fst d_error]. rewrite Hnp, Hnl. repeat split.
Qed.

Lemma fetchTasks_redirect_criterion_witness :
  outcome (getTasks true 1000 1000 Sample.list_no_session empty_cache)
  = Rejected unauthorized
  /\ existsb is_push_login
       (trace (fetchTasks 1000 Sample.list_no_session
                 (empty_cache, DashboardPage.initial))) = true.
Proof.
  split; [reflexivity|].
  exact (proj1 (proj2 (fetchTasks_redirect_criterion 1000 Sample.list_no_session
                         empty_cache DashboardPage.initial unauthorized eq_refl))).
Defined.

(* ===================================================================== *)
(** * Dashboard controller: mutations *)
(* ===================================================================== *)

Lemma api_then_clear {T} (net : Net T) ep m body (cache : Cache) :
  (task <- apiRequest net ep m body ;; clearApiCache ;; ret task) cache =
  match acquired (token_fetch net) with
  | None => (Rejected unauthorized, cache, [EvFetchToken])
  | Some bearer =>
      match store_outcome (store_fetch net) with
      | Resolved v =>
          (Resolved v, empty_cache,
           [EvFetchToken; EvFetchStore m ep bearer body; EvClearCache])
      | Rejected e =>
          (Rejected e, cache, [EvFetchToken; EvFetchStore m ep bearer body])
      end
  end.
Proof.
  unfold bind at 1. rewrite apiRequest_run.
  destruct (acquired (token_fetch net)); [|reflexivity].
  destruct (store_outcome (store_fetch net)); reflexivity.
Qed.

Lemma deleteTask_run (taskId : Z) (net : Net unit) (cache : Cache) :
  deleteTask taskId net cache =
  match acquired (token_fetch net) with
  | None => (Rejected unauthorized, cache, [EvFetchToken])
  | Some bearer =>
      match store_outcome (store_fetch net) with
      | Resolved _ =>
          (Resolved tt, empty_cache,
           [EvFetchToken; EvFetchStore DELETE (EpTask taskId) bearer None; EvClearCache])
      | Rejected e =>
          (Rejected e, cache,
           [EvFetchToken; EvFetchStore DELETE (EpTask taskId) bearer None])
      end
  end.
Proof.
  unfold deleteTask, bind at 1. rewrite apiRequest_run.
  destruct (acquired (token_fetch net)); [|reflexivity].
  destruct (store_outcome (store_fetch net)); reflexivity.
Qed.

(** The body shared by the four handlers: a call of the API client, then
    an update of the list and a success notice, or an error notice and the
    error thrown again. *)
Lemma handler_run {A} (c : M Cache A) (u : A -> DashboardActions.Updater)
    (ok fb : jsstring) (cache : Cache) (p : DashboardActions.Page) :
  try_catch
    (v <- on_fst c ;;
     on_snd (DashboardActions.setTasks (u v)) ;;
     on_snd (DashboardActions.notify (DashboardActions.NoticeSuccess ok)))
    (DashboardActions.report fb) (cache, p)
  = match c cache with
    | (Resolved v, cache', tr) =>
        (Resolved tt,
         (cache', {| DashboardActions.cells := DashboardActions.cells p;
                     DashboardActions.updates := DashboardActions.updates p ++ [u v];
                     DashboardActions.notices :=
                       DashboardActions.notices p ++ [DashboardActions.NoticeSuccess ok] |}),
         tr)
    | (Rejected e, cache', tr) =>
        (Rejected e,
         (cache', {| DashboardActions.cells := DashboardActions.cells p;
                     DashboardActions.updates := DashboardActions.updates p;
                     DashboardActions.notices :=
                       DashboardActions.notices p
                       ++ [DashboardActions.NoticeError
                             (DashboardActions.message_or fb e)] |}),
         tr)
    end.
Proof.
  unfold try_catch, bind, on_fst, on_snd, DashboardActions.report,
    DashboardActions.setTasks, DashboardActions.notify, modify, throw.
  destruct (c cache) as [[[v | e] cache'] tr]; cbn; now rewrite !app_nil_r.
Qed.

Lemma handleCreateTask_run (data : TaskCreate) (net : Net Task) (cache : Cache)
    (p : DashboardActions.Page) :
  DashboardActions.handleCreateTask data net (cache, p)
  = match createTask data net cache with
    | (Resolved v, cache', tr) =>
        (Resolved tt,
         (cache', {| DashboardActions.cells :=
                       DashboardActions.settled_cells
                         (DashboardActions.ActCreate data net) (DashboardActions.cells p);
                     DashboardActions.updates :=
                       DashboardActions.updates p ++ [DashboardActions.Prepend v];
                     DashboardActions.notices :=
                       DashboardActions.notices p
                       ++ [DashboardActions.NoticeSuccess (lit "Task created successfully")] |}),
         tr)
    | (Rejected e, cache', tr) =>
        (Rejected e,
         (cache', {| DashboardActions.cells :=
                       DashboardActions.settled_cells
                         (DashboardActions.ActCreate data net) (DashboardActions.cells p);
                     DashboardActions.updates := DashboardActions.updates p;
                     DashboardActions.notices :=
                       DashboardActions.notices p
                       ++ [DashboardActions.NoticeError
                             (DashboardActions.message_or (lit "Failed to create task") e)] |}),
         tr)
    end.
Proof.
  unfold DashboardActions.handleCreateTask, finally.
  unfold bind at 1 2.
  cbn [on_snd DashboardActions.on_cells DashboardActions.setIsCreating
       DashboardPage.setError modify].
  cbn beta iota zeta. cbn [DashboardActions.cells DashboardActions.updates
                           DashboardActions.notices].
  rewrite handler_run.
  destruct (createTask data net cache) as [[[v | e] cache'] tr];
    cbn; now rewrite ?app_nil_r.
Qed.

(** X22. Each of the four mutation handlers of the dashboard makes the one
    call of the API client that belongs to it and settles as that call
    does.  If the call resolves, the handler queues one update of the task
    list, built from the value the store returned, and sends one success
    notice.  If the call rejects, the handler queues no update, sends one
    error notice carrying the message of the error (or its fallback text)
    and throws the same error again.  Creation also clears [isCreating]
    and the banner's error, in both cases. *)
Theorem mutation_handler_reports (a : DashboardActions.Action) (cache : Cache)
    (p : DashboardActions.Page) :
  let r := DashboardActions.handle a (cache, p) in
  let api := run (DashboardActions.action_call a) cache in
  outcome r = outcome api
  /\ fst (final r) = final api
  /\ trace r = trace api
  /\ DashboardActions.cells (snd (final r))
     = DashboardActions.settled_cells a (DashboardActions.cells p)
  /\ match outcome api with
     | Resolved _ =>
         DashboardActions.updates (snd (final r))
         = DashboardActions.updates p ++ [DashboardActions.action_updater a]
         /\ DashboardActions.notices (snd (final r))
            = DashboardActions.notices p
              ++ [DashboardActions.NoticeSuccess (DashboardActions.success_message a)]
     | Rejected e =>
         DashboardActions.updates (snd (final r)) = DashboardActions.updates p
         /\ DashboardActions.notices (snd (final r))
            = DashboardActions.notices p
              ++ [DashboardActions.NoticeError
                    (DashboardActions.message_or
                       (DashboardActions.fallback_message a) e)]
     end.
Proof.
  cbn zeta.
  assert (Hm : is_mutation (DashboardActions.action_call a) = true)
    by (destruct a as [| | |? []]; reflexivity).
  rewrite (mutation_run _ cache Hm).
  destruct a as [data net | i data net | i net | i b net];
    [| | |destruct b];
    cbn [DashboardActions.handle DashboardActions.action_call call_token
         call_store_outcome call_request DashboardActions.action_updater
         DashboardActions.settled_cells DashboardActions.success_message
         DashboardActions.fallback_message];
    unfold DashboardActions.handleUpdateTask, DashboardActions.handleDeleteTask,
      DashboardActions.handleToggleComplete;
    rewrite ?handleCreateTask_run, ?handler_run;
    unfold createTask, updateTask, completeTask, uncompleteTask;
    rewrite ?api_then_clear, ?deleteTask_run;
    (destruct (acquired (token_fetch net));
     [destruct (store_outcome (store_fetch net)) as [v | e] | ]);
    cbn; repeat split.
Qed.


Lemma replace_absent (taskId : Z) (updated : Task) (prev : list Task) :
  ~ In taskId (map id prev) -> DashboardActions.replace taskId updated prev = prev.
Proof.
  unfold DashboardActions.replace.
  induction prev as [|t prev IH]; [reflexivity|]. cbn. intros H.
  destruct (Z.eqb_spec (id t) taskId) as [E | _]; [tauto|].
  rewrite IH; [reflexivity | tauto].
Qed.

(** X23. Replacing a task by the store's version of it keeps the list in
    shape.  The length never changes, and a list without the id is left as
    it is.  When the returned task has the id asked for, the ids keep
    their order, the tasks with another id are untouched, and if the id is
    in the list then so is the returned task. *)
Theorem replace_keeps_order (taskId : Z) (updated : Task) (prev : list Task) :
  List.length (DashboardActions.replace taskId updated prev) = List.length prev
  /\ (~ In taskId (map id prev) ->
      DashboardActions.replace taskId updated prev = prev)
  /\ (id updated = taskId ->
      map id (DashboardActions.replace taskId updated prev) = map id prev
      /\ DashboardActions.remove taskId (DashboardActions.replace taskId updated prev)
         = DashboardActions.remove taskId prev
      /\ (In taskId (map id prev) ->
          In updated (DashboardActions.replace taskId updated prev))).
Proof.
  split; [apply length_map|]. split; [apply replace_absent|].
  unfold DashboardActions.replace, DashboardActions.remove.
  intros Hu. split; [|split].
  - induction prev as [|t prev IH]; [reflexivity|]. cbn. rewrite IH.
    destruct (Z.eqb_spec (id t) taskId); congruence.
  - induction prev as [|t prev IH]; [reflexivity|]. cbn.
    destruct (Z.eqb_spec (id t) taskId) as [E | E]; cbn.
    + destruct (Z.eqb_spec (id updated) taskId); [exact IH | contradiction].
    + destruct (Z.eqb_spec (id t) taskId); [contradiction|]. cbn. now rewrite IH.
  - induction prev as [|t prev IH]; cbn; [tauto|].
    intros [H | H].
    + left. destruct (Z.eqb_spec (id t) taskId); congruence.
    + right. auto.
Qed.

Lemma replace_keeps_order_witness :
  id Sample.task1 = 1%Z
  /\ map id (DashboardActions.replace 1 Sample.task1 [Sample.task1]) = [1%Z].
Proof.
  split; [reflexivity|].
  exact (proj1 (proj2 (proj2 (replace_keeps_order 1 Sample.task1 [Sample.task1]))
                  eq_refl)).
Defined.

(** X24. Removing a task by id leaves no task with that id and keeps
    exactly the others; a list without the id is left as it is; and
    removing a task that was just put in front of a list that did not have
    its id gives that list back. *)
Theorem remove_by_id (taskId : Z) (prev : list Task) :
  ~ In taskId (map id (DashboardActions.remove taskId prev))
  /\ (forall t, In t (DashboardActions.remove taskId prev)
                <-> In t prev /\ id t <> taskId)
  /\ (~ In taskId (map id prev) -> DashboardActions.remove taskId prev = prev)
  /\ (forall newTask,
        id newTask = taskId -> ~ In taskId (map id prev) ->
        DashboardActions.remove taskId (DashboardActions.prepend newTask prev) = prev).
Proof.
  unfold DashboardActions.remove, DashboardActions.prepend.
  assert (Hin : forall t, In t (filter (fun t => negb (id t =? taskId)%Z) prev)
                          <-> In t prev /\ id t <> taskId).
  { intros t. rewrite filter_In.
    destruct (Z.eqb_spec (id t) taskId); cbn; intuition congruence. }
  assert (Habsent : ~ In taskId (map id prev) ->
                    filter (fun t => negb (id t =? taskId)%Z) prev = prev).
  { induction prev as [|t prev IH]; [reflexivity|]. cbn. intros H.
    destruct (Z.eqb_spec (id t) taskId) as [E | _]; [tauto|]. cbn.
    rewrite IH; [reflexivity | |tauto].
    intros t'. rewrite filter_In.
    destruct (Z.eqb_spec (id t') taskId); cbn; intuition congruence. }
  split; [|split; [exact Hin | split; [exact Habsent|]]].
  - rewrite in_map_iff. intros (t & Hid & Ht). apply Hin in Ht. tauto.
  - intros newTask Hid Hfresh. cbn.
    destruct (Z.eqb_spec (id newTask) taskId); [|contradiction]. cbn.
    exact (Habsent Hfresh).
Qed.

Lemma remove_by_id_witness :
  id Sample.task1 = 1%Z /\ ~ In 1%Z (map id (@nil Task))
  /\ DashboardActions.remove 1 (DashboardActions.prepend Sample.task1 []) = [].
Proof.
  assert (Hfresh : ~ In 1%Z (map id (@nil Task))) by (cbn; tauto).
  split; [reflexivity|]. split; [exact Hfresh|].
  exact (proj2 (proj2 (proj2 (remove_by_id 1 []))) Sample.task1 eq_refl Hfresh).
Defined.

(** What [handleSubmit] does with a title that passes validation. *)
Lemma handleSubmit_accepted (S : Type) (onSubmit : TaskCreate -> M S unit)
    (s : S) (f : TaskForm.State) :
  TaskForm.validateTitle (TaskForm.f_title f) = None ->
  TaskForm.handleSubmit onSubmit (s, f)
  = match onSubmit {| tc_title := trim (TaskForm.f_title f);
                      tc_description :=
                        TaskForm.string_or_null (trim (TaskForm.f_description f)) |} s with
    | (Resolved _, s', tr) =>
        (Resolved tt,
         (s', {| TaskForm.f_title := []; TaskForm.f_description := [];
                 TaskForm.f_error := None |}),
         tr)
    | (Rejected e, s', tr) =>
        (Resolved tt,
         (s', {| TaskForm.f_title := TaskForm.f_title f;
                 TaskForm.f_description := TaskForm.f_description f;
                 TaskForm.f_error :=
                   Some (if instanceof_Error e then error_message e
                         else lit "Failed to create task") |}),
         tr)
    end.
Proof.
  intros Hv.
  unfold TaskForm.handleSubmit, bind, get, try_catch, on_fst, on_snd,
    TaskForm.setError, TaskForm.setTitle, TaskForm.setDescription, modify.
  cbn [snd fst]. rewrite Hv. cbn [TaskForm.truthy_or_null].
  cbn [TaskForm.f_title TaskForm.f_description TaskForm.f_error app].
  destruct (onSubmit _ s) as [[[u | e] s'] tr].
  - cbn. now rewrite !app_nil_r.
  - cbn. destruct (instanceof_Error e); cbn; now rewrite !app_nil_r.
Qed.

(** X25. The task form wired to the dashboard's [handleCreateTask]: when
    the creation of an accepted title fails, the submission still resolves,
    the error is reported once as a notice and once in the form, with the
    same text, the form keeps what was typed, no update of the list is
    queued and the cache is left as it was. *)
Theorem failed_creation_is_shown_twice (net : Net Task) (cache : Cache)
    (p : DashboardActions.Page) (f : TaskForm.State) (e : Thrown) :
  let data := {| tc_title := trim (TaskForm.f_title f);
                 tc_description :=
                   TaskForm.string_or_null (trim (TaskForm.f_description f)) |} in
  TaskForm.validateTitle (TaskForm.f_title f) = None ->
  outcome (createTask data net cache) = Rejected e ->
  let r := TaskForm.handleSubmit
             (fun d => DashboardActions.handleCreateTask d net) ((cache, p), f) in
  let text := DashboardActions.message_or (lit "Failed to create task") e in
  outcome r = Resolved tt
  /\ TaskForm.f_error (snd (final r)) = Some text
  /\ DashboardActions.notices (snd (fst (final r)))
     = DashboardActions.notices p ++ [DashboardActions.NoticeError text]
  /\ TaskForm.f_title (snd (final r)) = TaskForm.f_title f
  /\ TaskForm.f_description (snd (final r)) = TaskForm.f_description f
  /\ DashboardActions.updates (snd (fst (final r))) = DashboardActions.updates p
  /\ fst (fst (final r)) = cache.
Proof.
  cbn zeta. intros Hv Hrej.
  rewrite (handleSubmit_accepted _ _ _ f Hv), handleCreateTask_run.
  unfold createTask in *. rewrite api_then_clear in *.
  destruct (acquired (token_fetch net)).
  - destruct (store_outcome (store_fetch net)) as [v | e']; [discriminate|].
    injection Hrej as ->. unfold DashboardActions.message_or.
    destruct (instanceof_Error e); repeat split.
  - injection Hrej as <-. repeat split.
Qed.

Lemma failed_creation_is_shown_twice_witness :
  TaskForm.validateTitle (TaskForm.f_title (Sample.form 3)) = None
  /\ outcome (createTask {| tc_title := trim (TaskForm.f_title (Sample.form 3));
                            tc_description := None |}
                (Sample.net Sample.token_401 (FetchRejects NonError)) empty_cache)
     = Rejected unauthorized
  /\ TaskForm.f_error
       (snd (final (TaskForm.handleSubmit
                      (fun d => DashboardActions.handleCreateTask d
                                  (Sample.net Sample.token_401 (FetchRejects NonError)))
                      ((empty_cache,
                        {| DashboardActions.cells := DashboardPage.initial;
                           DashboardActions.updates := [];
                           DashboardActions.notices := [] |}),
                       Sample.form 3))))
     = Some (lit "Not authenticated").
Proof.
  split; [reflexivity|]. split; [reflexivity|].
  exact (proj1 (proj2 (failed_creation_is_shown_twice
                         (Sample.net Sample.token_401 (FetchRejects NonError))
                         empty_cache
                         {| DashboardActions.cells := DashboardPage.initial;
                            DashboardActions.updates := [];
                            DashboardActions.notices := [] |}
                         (Sample.form 3) unauthorized eq_refl eq_refl))).
Defined.

(* ===================================================================== *)
(** * Toast notifications *)
(* ===================================================================== *)

(** X26. Hiding the toast that was just shown gives back the list of
    toasts from before, provided the new id was not in use. *)
Theorem hide_undoes_show (fresh : jsstring) (type : Toast.ToastType)
    (message : jsstring) (duration : option Z) (toasts : list Toast.Toast) :
  forallb (fun t => negb (Js.eqb (Toast.t_id t) fresh)) toasts = true ->
  final (Toast.hideToast fresh
           (final (Toast.showToast fresh type message duration toasts)))
  = toasts.
Proof.
  intros Hfresh. unfold Toast.showToast, Toast.hideToast, bind, modify, ret.
  cbn [final fst snd]. rewrite filter_app. cbn [filter Toast.t_id].
  rewrite eqb_refl. cbn [negb]. rewrite app_nil_r.
  induction toasts as [|t toasts IH]; [reflexivity|].
  cbn in *. apply andb_true_iff in Hfresh. destruct Hfresh as [Ht Hrest].
  rewrite Ht. now rewrite (IH Hrest).
Qed.

Lemma hide_undoes_show_witness :
  forallb (fun t => negb (Js.eqb (Toast.t_id t) (lit "toast-2")))
    [{| Toast.t_id := lit "toast-1"; Toast.t_type := Toast.error;
        Toast.t_message := lit "Failed"; Toast.t_duration := 5000 |}] = true
  /\ final (Toast.hideToast (lit "toast-2")
              (final (Toast.showToast (lit "toast-2") Toast.success (lit "Saved") None
                        [{| Toast.t_id := lit "toast-1"; Toast.t_type := Toast.error;
                            Toast.t_message := lit "Failed";
                            Toast.t_duration := 5000 |}])))
     = [{| Toast.t_id := lit "toast-1"; Toast.t_type := Toast.error;
           Toast.t_message := lit "Failed"; Toast.t_duration := 5000 |}].
Proof.
  split; [reflexivity|].
  exact (hide_undoes_show (lit "toast-2") Toast.success (lit "Saved") None
           [{| Toast.t_id := lit "toast-1"; Toast.t_type := Toast.error;
               Toast.t_message := lit "Failed"; Toast.t_duration := 5000 |}]
           eq_refl).
Defined.

(** X27. Whether a toast dismisses itself is decided by its duration
    alone.  [showToast] gives a toast the duration it is passed or, when
    none is passed, 0 for type [loading] and 4000 ms for the other types,
    and the toast dismisses itself exactly when that duration is positive.
    So a toast made by the [loading] helper, which passes 0, never
    dismisses itself, while a toast of type [loading] made by [showToast]
    with a positive duration does.  A toast made by the [success] or the
    [error] helper dismisses itself, after 4000 ms and 5000 ms when no
    duration is given, unless it is given a duration that is not
    positive. *)
Theorem toast_auto_dismissal (fresh message : jsstring) (type : Toast.ToastType)
    (duration : option Z) (toasts : list Toast.Toast) :
  (exists t, final (Toast.showToast fresh type message duration toasts) = toasts ++ [t]
             /\ Toast.t_type t = type
             /\ Toast.t_duration t
                = Toast.nullish_or duration
                    (match type with Toast.loading => 0 | _ => 4000 end)%Z
             /\ Toast.auto_dismisses t
                = match duration with
                  | Some z => (0 <? z)%Z
                  | None => match type with Toast.loading => false | _ => true end
                  end)
  /\ (exists t, final (Toast.toast_loading fresh message toasts) = toasts ++ [t]
                /\ Toast.t_type t = Toast.loading
                /\ Toast.auto_dismisses t = false)
  /\ (exists t, final (Toast.toast_success fresh message duration toasts) = toasts ++ [t]
                /\ Toast.t_duration t = Toast.nullish_or duration 4000
                /\ Toast.auto_dismisses t
                   = match duration with Some z => (0 <? z)%Z | None => true end)
  /\ (exists t, final (Toast.toast_error fresh message duration toasts) = toasts ++ [t]
                /\ Toast.t_duration t = Toast.nullish_or duration 5000
                /\ Toast.auto_dismisses t
                   = match duration with Some z => (0 <? z)%Z | None => true end).
Proof.
  assert (H : forall z, negb (z =? 0)%Z && (0 <? z)%Z = (0 <? z)%Z).
  { intros z. destruct (Z.eqb_spec z 0) as [-> | _]; reflexivity. }
  split; [|split; [|split]]; eexists; (split; [reflexivity|]);
    unfold Toast.auto_dismisses; cbn [Toast.t_duration Toast.t_type Toast.nullish_or];
    repeat (split; [reflexivity|]);
    try reflexivity;
    destruct duration as [z|]; cbn [Toast.nullish_or]; try apply H;
    try reflexivity; destruct type; reflexivity.
Qed.

(* ===================================================================== *)
(** * Token route *)
(* ===================================================================== *)

Lemma token_route_run (env : TokenRoute.Env) :
  (exists token,
     TokenRoute.issues env token
     /\ TokenRoute.GET env tt
        = (Resolved {| TokenRoute.status := 200;
                       TokenRoute.body := JObj [(lit "token", JStr token)] |}, tt, []))
  \/ ((forall token, ~ TokenRoute.issues env token)
      /\ (TokenRoute.GET env tt = (Resolved TokenRoute.not_authenticated, tt, [])
          \/ TokenRoute.GET env tt
             = (Resolved TokenRoute.generation_failed, tt, [EvConsoleError]))).
Proof.
  unfold TokenRoute.GET, TokenRoute.issues, try_catch, bind.
  destruct (TokenRoute.getSession env) as [session | e] eqn:Hs; cbn.
  - destruct session as [| | session]; cbn;
      try (right; split; [intros token (? & ? & ? & [=] & _) | left; reflexivity]).
    destruct (TokenRoute.s_user session) as [| | user] eqn:Hu; cbn;
      try (right; split;
           [intros token (s' & u' & i' & [= <-] & Hu' & _); congruence
           | left; reflexivity]).
    destruct (TokenRoute.u_id user) as [| | i] eqn:Hi; cbn;
      try (right; split;
           [intros token (s' & u' & i' & [= <-] & Hu' & Hi' & _); congruence
           | left; reflexivity]).
    destruct (truthy i) eqn:Ht; cbn.
    + destruct (TokenRoute.sign env i (TokenRoute.u_email user)) as [token | e] eqn:Hg; cbn.
      * left. exists token. split; [|reflexivity].
        exists session, user, i. auto.
      * right. split; [|right; reflexivity].
        intros token (s' & u' & i' & [= <-] & Hu' & Hi' & _ & Hg').
        rewrite Hu in Hu'. injection Hu' as <-. rewrite Hi in Hi'.
        injection Hi' as <-. congruence.
    + right. split; [|left; reflexivity].
      intros token (s' & u' & i' & [= <-] & Hu' & Hi' & Ht' & _).
      rewrite Hu in Hu'. injection Hu' as <-. rewrite Hi in Hi'.
      injection Hi' as <-. congruence.
  - right. split; [|right; reflexivity].
    intros token (? & ? & ? & [=] & _).
Qed.

(** X28. The token route always answers, and with one of three responses:
    200 with a body [{token}] when the session names a user with a
    non-empty id and signing succeeds, the token being the signed one; 401
    or 500 with a body that has no [token] in every other case. *)
Theorem token_route_guards_token (env : TokenRoute.Env) :
  exists r tr,
    TokenRoute.GET env tt = (Resolved r, tt, tr)
    /\ ((TokenRoute.status r = 200%Z
         /\ exists token, TokenRoute.issues env token
                          /\ TokenRoute.body r = JObj [(lit "token", JStr token)])
        \/ ((TokenRoute.status r = 401%Z \/ TokenRoute.status r = 500%Z)
            /\ optional_get (TokenRoute.body r) (lit "token") = None
            /\ forall token, ~ TokenRoute.issues env token)).
Proof.
  destruct (token_route_run env) as [(token & Hi & ->) | (Hno & [-> | ->])];
    eexists; eexists; (split; [reflexivity|]).
  - left. split; [reflexivity|]. exists token. auto.
  - right. repeat split; auto.
  - right. repeat split; auto.
Qed.

(** X29. The token bridge over the token route: [getAuthToken], given the
    route's answer, returns a token exactly when the session names a user
    with a non-empty id and signing gave a non-empty token, and then it
    returns that token; in every other case it returns [null]. *)
Theorem getAuthToken_over_route (env : TokenRoute.Env) (v : Json) :
  acquired (TokenRoute.as_fetched (TokenRoute.answer env)) = Some v
  <-> exists token, TokenRoute.issues env token
                    /\ truthy token = true /\ v = JStr token.
Proof.
  unfold TokenRoute.answer.
  destruct (token_route_run env) as [(token & Hi & ->) | (Hno & [-> | ->])];
    cbn [outcome fst].
  - unfold acquired. cbn. unfold or_null. cbn.
    change (lookup (lit "token") [(lit "token", JStr token)])
      with (if Js.eqb (lit "token") (lit "token") then Some (JStr token) else None).
    rewrite eqb_refl. cbn. split.
    + destruct (truthy token) eqn:Ht; [|discriminate].
      intros [= <-]. exists token. auto.
    + intros (token' & Hi' & Ht & ->).
      assert (token' = token) as ->.
      { destruct Hi as (s1 & u1 & i1 & Hs1 & Hu1 & Hi1 & _ & Hg1).
        destruct Hi' as (s2 & u2 & i2 & Hs2 & Hu2 & Hi2 & _ & Hg2).
        rewrite Hs1 in Hs2. injection Hs2 as <-.
        rewrite Hu1 in Hu2. injection Hu2 as <-.
        rewrite Hi1 in Hi2. injection Hi2 as <-.
        rewrite Hg1 in Hg2. now injection Hg2. }
      now rewrite Ht.
  - split; [discriminate|]. intros (token & Hi & _). now apply Hno in Hi.
  - split; [discriminate|]. intros (token & Hi & _). now apply Hno in Hi.
Qed.

Lemma getAuthToken_over_route_witness :
  acquired
    (TokenRoute.as_fetched
       (TokenRoute.answer
          {| TokenRoute.getSession :=
               Resolved
                 (TokenRoute.Value
                    {| TokenRoute.s_user :=
                         TokenRoute.Value
                           {| TokenRoute.u_id := TokenRoute.Value (lit "u1");
                              TokenRoute.u_email :=
                                TokenRoute.Value (lit "ann@example.org") |} |});
             TokenRoute.sign := fun _ _ => Resolved (lit "jwt") |}))
  = Some (JStr (lit "jwt"))
  /\ exists token,
       TokenRoute.issues
         {| TokenRoute.getSession :=
              Resolved
                (TokenRoute.Value
                   {| TokenRoute.s_user :=
                        TokenRoute.Value
                          {| TokenRoute.u_id := TokenRoute.Value (lit "u1");
                             TokenRoute.u_email :=
                               TokenRoute.Value (lit "ann@example.org") |} |});
            TokenRoute.sign := fun _ _ => Resolved (lit "jwt") |} token
       /\ truthy token = true /\ JStr (lit "jwt") = JStr token.
Proof.
  split; [reflexivity|].
  exact (proj1 (getAuthToken_over_route
                  {| TokenRoute.getSession :=
                       Resolved
                         (TokenRoute.Value
                            {| TokenRoute.s_user :=
                                 TokenRoute.Value
                                   {| TokenRoute.u_id := TokenRoute.Value (lit "u1");
                                      TokenRoute.u_email :=
                                        TokenRoute.Value (lit "ann@example.org") |} |});
                     TokenRoute.sign := fun _ _ => Resolved (lit "jwt") |}
                  (JStr (lit "jwt"))) eq_refl).
Defined.
